(** * Query_Chatbot: the query-to-decision pipeline

    A shallow embedding of the insurance query pipeline of the repository:
    - [query_parser.py]   : [parse_query], [enhance_for_retrieval], [process_query]
    - [retriever.py]      : [retrieve_clauses]
    - [vectorstore.py]    : [query_vectorstore]
    - [main.py]           : the search loop and de-duplication of [query_rag_system]
    - [decision_engine.py]: [make_decision], [get_decision_summary]

    Python values are the values [json.loads] yields (without decimal
    numbers); a [str] is modelled by its UTF-8 bytes; a [dict] is an
    association list in insertion order.  The external collaborators (the
    three LLM chains, the retriever and the vector store) are oracles of a
    [World]; every call is appended to a log, and an oracle may answer
    differently at each position of the log.  Exceptions are the instances
    of Python's [Exception], the ones an [except Exception] clause catches. *)

From Stdlib Require Import String Ascii List ZArith Lia Bool Permutation.
From Stdlib Require Import DecimalString DecimalN.
Import ListNotations.
Open Scope string_scope.

(* ================================================================== *)
(** ** Python values *)

Module Py.

#[local] Set Warnings "-register-all".

Inductive json : Type :=
  | JNull
  | JBool (b : bool)
  | JInt (z : Z)
  | JStr (s : string)
  | JArr (l : list json)
  | JObj (d : list (string * json)).

(** An exception object: its class and [str(e)]. *)
Record exn : Type := Exn { exn_class : string; exn_str : string }.

Inductive outcome (A : Type) : Type :=
  | Ok (a : A)
  | Raise (e : exn).
Arguments Ok {A} a.
Arguments Raise {A} e.

Definition is_ok {A} (o : outcome A) : bool :=
  match o with Ok _ => true | Raise _ => false end.

Definition type_name (v : json) : string :=
  match v with
  | JNull => "NoneType"
  | JBool _ => "bool"
  | JInt _ => "int"
  | JStr _ => "str"
  | JArr _ => "list"
  | JObj _ => "dict"
  end.

(** *** Insertion-ordered dictionaries with [str] keys *)

Section Dict.
Context {V : Type}.

Fixpoint dict_get (k : string) (d : list (string * V)) : option V :=
  match d with
  | [] => None
  | (k', v) :: r => if String.eqb k k' then Some v else dict_get k r
  end.

(** [d[k] = v]: an existing key keeps its position and takes the new
    value, a new key goes last. *)
Fixpoint dict_set (k : string) (v : V) (d : list (string * V)) : list (string * V) :=
  match d with
  | [] => [(k, v)]
  | (k', v') :: r =>
      if String.eqb k k' then (k', v) :: r else (k', v') :: dict_set k v r
  end.

Definition dict_keys (d : list (string * V)) : list string := map fst d.
Definition dict_values (d : list (string * V)) : list V := map snd d.

(** [d.get(k, default)] *)
Definition dict_get_default (k : string) (default : V) (d : list (string * V)) : V :=
  match dict_get k d with Some v => v | None => default end.
End Dict.

Definition dict : Type := list (string * json).

(** Python's [==] on dictionaries does not look at the order of the keys. *)
Definition dict_equiv (d1 d2 : dict) : Prop :=
  forall k, dict_get k d1 = dict_get k d2.

Definition squote : string := "'".
Definition dquote : string := String (ascii_of_nat 34) EmptyString.

(** [d[k]] on a dictionary; [str(KeyError(k))] is [repr(k)]. *)
Definition getitem (d : dict) (k : string) : outcome json :=
  match dict_get k d with
  | Some v => Ok v
  | None => Raise (Exn "KeyError" (squote ++ k ++ squote))
  end.

(** [v[k] = x] on any value: only a dictionary takes a [str] key. *)
Definition setitem (v : json) (k : string) (x : json) : outcome dict :=
  match v with
  | JObj d => Ok (dict_set k x d)
  | JArr _ => Raise (Exn "TypeError" "list indices must be integers or slices, not str")
  | _ => Raise (Exn "TypeError"
                  (squote ++ type_name v ++ squote ++ " object does not support item assignment"))
  end.

(** [bool(d)] for an optional dictionary: [None] and [{}] are falsy. *)
Definition truthy (pd : option dict) : bool :=
  match pd with
  | None => false
  | Some [] => false
  | Some (_ :: _) => true
  end.

(** [pd or {}] *)
Definition or_empty (pd : option dict) : dict :=
  match pd with
  | Some (x :: r) => x :: r
  | _ => []
  end.

(** *** Hashing and equality of the values a [set] can hold *)

Definition hashable (v : json) : bool :=
  match v with
  | JArr _ | JObj _ => false
  | _ => true
  end.

Definition int_of_bool (b : bool) : Z := if b then 1%Z else 0%Z.

(** Python's [==] on hashable values: [True == 1] and [False == 0]. *)
Definition py_eqb (a b : json) : bool :=
  match a, b with
  | JNull, JNull => true
  | JStr s, JStr t => String.eqb s t
  | JBool x, JBool y => Bool.eqb x y
  | JInt x, JInt y => Z.eqb x y
  | JBool x, JInt y => Z.eqb (int_of_bool x) y
  | JInt x, JBool y => Z.eqb x (int_of_bool y)
  | _, _ => false
  end.

Definition py_mem (x : json) (l : list json) : bool := existsb (py_eqb x) l.

(** The elements of [set(l)], each kept as first inserted. *)
Fixpoint set_add_all (seen l : list json) : list json :=
  match l with
  | [] => seen
  | x :: r => if py_mem x seen then set_add_all seen r else set_add_all (seen ++ [x])%list r
  end.

(** [set(l)]: raises on the first unhashable element. *)
Definition py_set (l : list json) : outcome (list json) :=
  match find (fun v => negb (hashable v)) l with
  | Some v => Raise (Exn "TypeError" ("unhashable type: " ++ squote ++ type_name v ++ squote))
  | None => Ok (set_add_all [] l)
  end.

(** [a + phrases] where [phrases] is a list of [str]. *)
Definition py_add_list (a : json) (phrases : list string) : outcome (list json) :=
  match a with
  | JArr l => Ok (l ++ map JStr phrases)%list
  | JStr _ =>
      Raise (Exn "TypeError"
               ("can only concatenate str (not " ++ dquote ++ "list" ++ dquote ++ ") to str"))
  | _ =>
      Raise (Exn "TypeError"
               ("unsupported operand type(s) for +: " ++ squote ++ type_name a ++ squote
                ++ " and " ++ squote ++ "list" ++ squote))
  end.

End Py.
Export Py.

(* ================================================================== *)
(** ** Text operations *)

Module Text.

Definition nl : ascii := ascii_of_nat 10.

(** *** [re.search(r'\{.*\}', s, re.DOTALL)] *)

(** The suffix of [s] that starts at its first opening brace. *)
Fixpoint from_first_open (s : string) : option string :=
  match s with
  | EmptyString => None
  | String c r => if Ascii.eqb c "{" then Some s else from_first_open r
  end.

(** The longest prefix of [s] that ends in a closing brace. *)
Fixpoint upto_last_close (s : string) : option string :=
  match s with
  | EmptyString => None
  | String c r =>
      match upto_last_close r with
      | Some p => Some (String c p)
      | None => if Ascii.eqb c "}" then Some (String c EmptyString) else None
      end
  end.

(** [json_match.group()], or [None] when the search finds nothing: the
    greedy [.*] runs from the first opening brace to the last closing brace
    after it. *)
Definition brace_span (s : string) : option string :=
  match from_first_open s with
  | Some t => upto_last_close t
  | None => None
  end.

(** *** [s.split('\n')] *)

Fixpoint split_nl_aux (cur : string) (s : string) : list string :=
  match s with
  | EmptyString => [cur]
  | String c r =>
      if Ascii.eqb c nl then cur :: split_nl_aux EmptyString r
      else split_nl_aux (cur ++ String c EmptyString) r
  end.

Definition split_nl (s : string) : list string := split_nl_aux EmptyString s.

(** *** [s.strip()] on the UTF-8 bytes of [s] *)

(** White space of one byte: U+0009..U+000D, U+001C..U+001F, U+0020. *)
Definition ws1 (a : nat) : bool :=
  (((9 <=? a) && (a <=? 13)) || ((28 <=? a) && (a <=? 32)))%nat.

(** White space of two bytes: U+0085 and U+00A0. *)
Definition ws2 (a b : nat) : bool :=
  ((a =? 194) && ((b =? 133) || (b =? 160)))%nat.

(** White space of three bytes: U+1680, U+2000..U+200A, U+2028, U+2029,
    U+202F, U+205F, U+3000. *)
Definition ws3 (a b c : nat) : bool :=
  (((a =? 225) && (b =? 154) && (c =? 128))
   || ((a =? 226) && (b =? 128)
       && (((128 <=? c) && (c <=? 138)) || (c =? 168) || (c =? 169) || (c =? 175)))
   || ((a =? 226) && (b =? 129) && (c =? 159))
   || ((a =? 227) && (b =? 128) && (c =? 128)))%nat.

(** Drops leading white space; with [back] the bytes are read in reverse,
    as they are met from the end of the text. *)
Fixpoint lstrip_codes (back : bool) (l : list nat) : list nat :=
  match l with
  | [] => []
  | a :: r =>
      if ws1 a then lstrip_codes back r
      else
        match r with
        | [] => l
        | b :: r2 =>
            if (if back then ws2 b a else ws2 a b) then lstrip_codes back r2
            else
              match r2 with
              | [] => l
              | c :: r3 =>
                  if (if back then ws3 c b a else ws3 a b c) then lstrip_codes back r3
                  else l
              end
        end
  end.

Definition codes_of_string (s : string) : list nat :=
  map nat_of_ascii (list_ascii_of_string s).
Definition string_of_codes (l : list nat) : string :=
  string_of_list_ascii (map ascii_of_nat l).

Definition strip (s : string) : string :=
  string_of_codes
    (rev (lstrip_codes true (rev (lstrip_codes false (codes_of_string s))))).

Definition nonempty (s : string) : bool :=
  match s with EmptyString => false | _ => true end.

(** [sep.join(l)] *)
Definition join (sep : string) (l : list string) : string := String.concat sep l.

End Text.
Export Text.

(* ================================================================== *)
(** ** The external collaborators and the monad of a request *)

Module Ext.

(** A LangChain [Document]: its text, and [doc_id] standing for the rest of
    the object (metadata, identity). *)
Record Document : Type := Doc { page_content : string; doc_id : nat }.

(** The keyword arguments of [decision_chain.run]. *)
Record DecisionInputs : Type := MkInputs {
  in_clauses : string;
  in_age : json;
  in_gender : json;
  in_procedure : json;
  in_location : json;
  in_duration : json
}.

Inductive call : Type :=
  | StructureRun (query : string)
  | EnhancementRun (original_query : json) (structured_data : dict)
  | DecisionRun (inputs : DecisionInputs)
  | GetRelevantDocuments (query : string)
  | SimilaritySearch (query : string) (k : Z).

(** The oracles; the [nat] is the number of external calls made so far. *)
Record World : Type := MkWorld {
  structure_chain_run : nat -> string -> outcome string;
  enhancement_chain_run : nat -> json -> dict -> outcome string;
  decision_chain_run : nat -> DecisionInputs -> outcome string;
  get_relevant_documents : nat -> string -> outcome (list Document);
  similarity_search : nat -> string -> Z -> outcome (list Document)
}.

(** The parts of the Python runtime that are taken as given: [json.loads],
    and the order in which a [set] is iterated, some permutation of its
    elements. *)
Record Runtime : Type := MkRuntime {
  json_loads : string -> outcome json;
  set_iter : list json -> list json;
  set_iter_perm : forall l, Permutation (set_iter l) l
}.

Definition M (A : Type) : Type := World -> list call -> outcome A * list call.

Definition ret {A} (a : A) : M A := fun _ log => (Ok a, log).

Definition bind {A B} (m : M A) (f : A -> M B) : M B :=
  fun W log =>
    match m W log with
    | (Ok a, log') => f a W log'
    | (Raise e, log') => (Raise e, log')
    end.

Definition lift {A} (o : outcome A) : M A := fun _ log => (o, log).

(** [try: body  except Exception as e: handler e] *)
Definition try_except {A} (body : M A) (handler : exn -> M A) : M A :=
  fun W log =>
    match body W log with
    | (Ok a, log') => (Ok a, log')
    | (Raise e, log') => handler e W log'
    end.

Definition external {A} (c : call) (oracle : World -> nat -> outcome A) : M A :=
  fun W log => (oracle W (length log), (log ++ [c])%list).

End Ext.
Export Ext.

Declare Scope py_scope.
Delimit Scope py_scope with py.
Notation "x <- m ;; k" := (bind m (fun x => k))
  (at level 61, m at next level, right associativity) : py_scope.
Open Scope py_scope.

(* ================================================================== *)
(** ** query_parser.py *)

Module QueryParser.

Definition structure_chain_call (query : string) : M string :=
  external (StructureRun query) (fun W n => structure_chain_run W n query).

(** [enhancement_chain.run(original_query=..., structured_data=json.dumps(parsed_query, indent=2))]:
    the serialisation is part of the call. *)
Definition enhancement_chain_call (original_query : json) (parsed_query : dict) : M string :=
  external (EnhancementRun original_query parsed_query)
           (fun W n => enhancement_chain_run W n original_query parsed_query).

(** The dictionary built when the response holds no brace-delimited span. *)
Definition fallback_structure (query : string) : dict :=
  [ ("age", JNull); ("gender", JNull); ("procedure", JNull); ("location", JNull);
    ("policy_duration_months", JNull); ("query_type", JStr "general");
    ("keywords", JArr [JStr query]) ].

(** The dictionary returned by the [except] clause. *)
Definition except_structure (query : string) : dict :=
  [ ("original_query", JStr query);
    ("age", JNull); ("gender", JNull); ("procedure", JNull); ("location", JNull);
    ("policy_duration_months", JNull); ("query_type", JStr "general");
    ("keywords", JArr [JStr query]) ].

Definition parse_query (rt : Runtime) (query : string) : M dict :=
  try_except
    (structured_output <- structure_chain_call query ;;
     structured_data <-
       match brace_span structured_output with
       | Some span => lift (json_loads rt span)
       | None => ret (JObj (fallback_structure query))
       end ;;
     lift (setitem structured_data "original_query" (JStr query)))
    (fun _ => ret (except_structure query)).

(** [[phrase.strip() for phrase in enhanced_output.split('\n') if phrase.strip()]] *)
Definition search_phrases (enhanced_output : string) : list string :=
  map strip (filter (fun phrase => nonempty (strip phrase)) (split_nl enhanced_output)).

Definition enhance_for_retrieval (rt : Runtime) (parsed_query : dict) : M json :=
  try_except
    (original_query <- lift (getitem parsed_query "original_query") ;;
     enhanced_output <- enhancement_chain_call original_query parsed_query ;;
     let phrases := search_phrases enhanced_output in
     all_phrases <-
       lift (py_add_list (dict_get_default "keywords" (JArr []) parsed_query) phrases) ;;
     unique <- lift (py_set all_phrases) ;;
     ret (JArr (set_iter rt unique)))
    (fun _ =>
       original_query <- lift (getitem parsed_query "original_query") ;;
       ret (dict_get_default "keywords" (JArr [original_query]) parsed_query)).

Definition process_query (rt : Runtime) (query : string) : M dict :=
  structured_data <- parse_query rt query ;;
  enhanced_phrases <- enhance_for_retrieval rt structured_data ;;
  ret (dict_set "enhanced_search_phrases" enhanced_phrases structured_data).

Definition parse_insurance_query := process_query.

End QueryParser.
Export QueryParser.

(* ================================================================== *)
(** ** retriever.py and vectorstore.py *)

Module Retriever.

Definition retrieve_clauses (query : string) : M (list string) :=
  relevant_docs <-
    external (GetRelevantDocuments query) (fun W n => get_relevant_documents W n query) ;;
  ret (map page_content relevant_docs).

Definition query_vectorstore (query : string) (k : Z) : M (list Document) :=
  external (SimilaritySearch query k) (fun W n => similarity_search W n query k).

End Retriever.
Export Retriever.

(* ================================================================== *)
(** ** main.py: the retrieval part of [query_rag_system] *)

Module Main.

(** [for term in ...: results = query_vectorstore(term, k=2); all_results.extend(results)] *)
Fixpoint search_loop (terms : list string) (all_results : list Document) : M (list Document) :=
  match terms with
  | [] => ret all_results
  | term :: rest =>
      results <- query_vectorstore term 2 ;;
      search_loop rest (all_results ++ results)%list
  end.

(** [{doc.page_content: doc for doc in all_results}] *)
Definition by_content (all_results : list Document) : list (string * Document) :=
  fold_left (fun d doc => dict_set (page_content doc) doc d) all_results [].

(** Lines 131-138 of [query_rag_system]: the value of [unique_docs] given
    [search_terms]. *)
Definition unique_docs (search_terms : list string) : M (list Document) :=
  all_results <- search_loop (firstn 3 search_terms) [] ;;
  ret (firstn 5 (dict_values (by_content all_results))).

(** [dict.fromkeys]-style reading of the specification: drop every clause
    whose content was seen before. *)
Fixpoint dedup_first (seen : list string) (l : list string) : list string :=
  match l with
  | [] => []
  | x :: r =>
      if existsb (String.eqb x) seen then dedup_first seen r
      else x :: dedup_first (x :: seen) r
  end.

End Main.
Export Main.

(* ================================================================== *)
(** ** decision_engine.py *)

Module DecisionEngine.

Definition decision_chain_call (inputs : DecisionInputs) : M string :=
  external (DecisionRun inputs) (fun W n => decision_chain_run W n inputs).

(** The patient data read off the parsed query. *)
Definition patient_data_of (parsed_query : dict) : dict :=
  [ ("age", dict_get_default "age" (JStr "Unknown") parsed_query);
    ("gender", dict_get_default "gender" (JStr "Unknown") parsed_query);
    ("procedure", dict_get_default "procedure" (JStr "Unknown") parsed_query);
    ("location", dict_get_default "location" (JStr "Unknown") parsed_query);
    ("duration", dict_get_default "policy_duration_months" (JStr "Unknown") parsed_query) ].

(** The dictionary built when the response holds no brace-delimited span. *)
Definition fallback_decision : dict :=
  [ ("decision", JStr "REJECTED");
    ("amount", JNull);
    ("justification", JStr "Unable to process claim - insufficient policy information");
    ("risk_factors", JArr [JStr "Processing error"]);
    ("coverage_status", JStr "none") ].

(** The dictionary returned by the [except] clause. *)
Definition error_decision (query : string) (patient_data : option dict) (e : exn) : dict :=
  [ ("decision", JStr "REJECTED");
    ("amount", JNull);
    ("justification", JStr ("System error: " ++ exn_str e));
    ("risk_factors", JArr [JStr "System error"]);
    ("coverage_status", JStr "none");
    ("patient_details", JObj (or_empty patient_data));
    ("query", JStr query);
    ("error", JStr (exn_str e)) ].

Definition two_newlines : string := String nl (String nl EmptyString).

(** The body of the [try] once [patient_data] is bound. *)
Definition decide_with (rt : Runtime) (query : string) (patient_data : dict) : M dict :=
  clauses <- retrieve_clauses query ;;
  let clauses_text := join two_newlines clauses in
  age <- lift (getitem patient_data "age") ;;
  gender <- lift (getitem patient_data "gender") ;;
  procedure <- lift (getitem patient_data "procedure") ;;
  location <- lift (getitem patient_data "location") ;;
  duration <- lift (getitem patient_data "duration") ;;
  decision_result <-
    decision_chain_call (MkInputs clauses_text age gender procedure location duration) ;;
  decision_data <-
    match brace_span decision_result with
    | Some span => lift (json_loads rt span)
    | None => ret (JObj fallback_decision)
    end ;;
  d1 <- lift (setitem decision_data "patient_details" (JObj patient_data)) ;;
  let d2 := dict_set "query" (JStr query) d1 in
  clauses_again <- retrieve_clauses query ;;
  ret (dict_set "clauses_count" (JInt (Z.of_nat (length clauses_again))) d2).

(** [make_decision]: one [try] whose handler reads the variable
    [patient_data] as it stands when the exception is raised: the argument
    while the query is being parsed, the bound dictionary afterwards. *)
Definition make_decision (rt : Runtime) (query : string) (patient_data : option dict) : M dict :=
  try_except
    (pd <-
       (if truthy patient_data then ret (or_empty patient_data)
        else parsed_query <- parse_insurance_query rt query ;;
             ret (patient_data_of parsed_query)) ;;
     try_except
       (decide_with rt query pd)
       (fun e => ret (error_decision query (Some pd) e)))
    (fun e => ret (error_decision query patient_data e)).

(** *** [f"{value:,}"] *)

Fixpoint group3_rev (digits_rev : list ascii) : list ascii :=
  match digits_rev with
  | a :: b :: c :: ((_ :: _) as r) => a :: b :: c :: ascii_of_nat 44 :: group3_rev r
  | _ => digits_rev
  end.

Definition with_commas (digits : string) : string :=
  string_of_list_ascii (rev (group3_rev (rev (list_ascii_of_string digits)))).

Definition format_int_commas (z : Z) : string :=
  let digits := NilZero.string_of_uint (N.to_uint (Z.to_N (Z.abs z))) in
  if (z <? 0)%Z then "-" ++ with_commas digits else with_commas digits.

Definition format_commas (v : json) : outcome string :=
  match v with
  | JInt z => Ok (format_int_commas z)
  | JBool b => Ok (format_int_commas (int_of_bool b))
  | JStr _ => Raise (Exn "ValueError" "Cannot specify ',' with 's'.")
  | _ => Raise (Exn "TypeError"
                  ("unsupported format string passed to " ++ type_name v ++ ".__format__"))
  end.

Definition is_approved (v : json) : bool :=
  match v with JStr s => String.eqb s "APPROVED" | _ => false end.

Section Summary.
(** [str(v)], which an f-string applies to a value without format. *)
Variable str_of : json -> string.

Definition get_decision_summary (decision : dict) : outcome string :=
  match getitem decision "decision" with
  | Raise e => Raise e
  | Ok outcome_field =>
      if is_approved outcome_field then
        match getitem decision "amount" with
        | Raise e => Raise e
        | Ok amount =>
            match format_commas amount with
            | Raise e => Raise e
            | Ok amount_text =>
                match getitem decision "justification" with
                | Raise e => Raise e
                | Ok justification =>
                    Ok ("✅ CLAIM APPROVED - Amount: ₹" ++ amount_text ++ " | "
                        ++ str_of justification)
                end
            end
        end
      else
        match getitem decision "justification" with
        | Raise e => Raise e
        | Ok justification => Ok ("❌ CLAIM REJECTED - " ++ str_of justification)
        end
  end.
End Summary.

End DecisionEngine.
Export DecisionEngine.

(* ================================================================== *)
(** ** A runtime to run the model on concrete texts *)

Module Concrete.

(** A decoder for the JSON texts made of objects, arrays, strings with the
    one-letter escapes, integers and the three literals.  On such a text it
    yields the value [json.loads] yields; a text with a decimal or exponent
    number, a [\u] escape, [NaN] or [Infinity] is outside it and is not
    decoded.  The theorems below hold for every [Runtime]; this decoder only
    serves to evaluate the pipeline on given texts. *)

Local Open Scope nat_scope.
Local Open Scope list_scope.

Fixpoint skip_ws (l : list nat) : list nat :=
  match l with
  | c :: r => if (c =? 32) || (c =? 9) || (c =? 10) || (c =? 13) then skip_ws r else l
  | [] => []
  end.

Definition unescape (c : nat) : option nat :=
  if c =? 34 then Some 34          (* quote *)
  else if c =? 92 then Some 92     (* backslash *)
  else if c =? 47 then Some 47     (* slash *)
  else if c =? 98 then Some 8      (* b *)
  else if c =? 102 then Some 12    (* f *)
  else if c =? 110 then Some 10    (* n *)
  else if c =? 114 then Some 13    (* r *)
  else if c =? 116 then Some 9     (* t *)
  else None.

(** The text after an opening quote, up to the closing one. *)
Fixpoint scan_string (l : list nat) (acc : list nat) : option (string * list nat) :=
  match l with
  | [] => None
  | c :: r =>
      if c =? 34 then Some (string_of_codes (rev acc), r)
      else if c <? 32 then None
      else if c =? 92 then
        match r with
        | e :: r2 =>
            match unescape e with
            | Some x => scan_string r2 (x :: acc)
            | None => None
            end
        | [] => None
        end
      else scan_string r (c :: acc)
  end.

Definition is_digit (c : nat) : bool := (48 <=? c) && (c <=? 57).

Fixpoint scan_digits (l : list nat) (acc : Z) : Z * list nat :=
  match l with
  | c :: r => if is_digit c then scan_digits r (10 * acc + Z.of_nat (c - 48))%Z else (acc, l)
  | [] => (acc, [])
  end.

Definition starts_fraction (l : list nat) : bool :=
  match l with
  | c :: _ => (c =? 46) || (c =? 101) || (c =? 69)
  | [] => false
  end.

(** [0] or a digit string without leading zero; no fraction, no exponent. *)
Definition scan_nat (l : list nat) : option (Z * list nat) :=
  match l with
  | c :: r =>
      if c =? 48 then (if starts_fraction r then None else Some (0%Z, r))
      else if is_digit c then
        let '(z, r') := scan_digits l 0%Z in
        if starts_fraction r' then None else Some (z, r')
      else None
  | [] => None
  end.

Fixpoint strip_prefix (p l : list nat) : option (list nat) :=
  match p, l with
  | [], _ => Some l
  | a :: p', b :: l' => if a =? b then strip_prefix p' l' else None
  | _ :: _, [] => None
  end.

Definition scan_literal (l : list nat) : option (json * list nat) :=
  match strip_prefix (codes_of_string "true") l with
  | Some r => Some (JBool true, r)
  | None =>
      match strip_prefix (codes_of_string "false") l with
      | Some r => Some (JBool false, r)
      | None =>
          match strip_prefix (codes_of_string "null") l with
          | Some r => Some (JNull, r)
          | None => None
          end
      end
  end.

Fixpoint parse_value (fuel : nat) (l : list nat) {struct fuel} : option (json * list nat) :=
  match fuel with
  | O => None
  | S f =>
      match skip_ws l with
      | [] => None
      | c :: r =>
          if c =? 123 then
            match skip_ws r with
            | 125 :: r' => Some (JObj [], r')
            | r' =>
                match parse_members f r' [] with
                | Some (d, r'') => Some (JObj d, r'')
                | None => None
                end
            end
          else if c =? 91 then
            match skip_ws r with
            | 93 :: r' => Some (JArr [], r')
            | r' =>
                match parse_elements f r' [] with
                | Some (vs, r'') => Some (JArr vs, r'')
                | None => None
                end
            end
          else if c =? 34 then
            match scan_string r [] with
            | Some (s, r') => Some (JStr s, r')
            | None => None
            end
          else if c =? 45 then
            match scan_nat r with
            | Some (z, r') => Some (JInt (- z), r')
            | None => None
            end
          else if is_digit c then
            match scan_nat (c :: r) with
            | Some (z, r') => Some (JInt z, r')
            | None => None
            end
          else scan_literal (c :: r)
      end
  end

with parse_members (fuel : nat) (l : list nat) (acc : dict) {struct fuel}
  : option (dict * list nat) :=
  match fuel with
  | O => None
  | S f =>
      match l with
      | 34 :: r =>
          match scan_string r [] with
          | Some (k, r1) =>
              match skip_ws r1 with
              | 58 :: r2 =>
                  match parse_value f r2 with
                  | Some (v, r3) =>
                      match skip_ws r3 with
                      | 44 :: r4 => parse_members f (skip_ws r4) (dict_set k v acc)
                      | 125 :: r4 => Some (dict_set k v acc, r4)
                      | _ => None
                      end
                  | None => None
                  end
              | _ => None
              end
          | None => None
          end
      | _ => None
      end
  end

with parse_elements (fuel : nat) (l : list nat) (acc : list json) {struct fuel}
  : option (list json * list nat) :=
  match fuel with
  | O => None
  | S f =>
      match parse_value f l with
      | Some (v, r) =>
          match skip_ws r with
          | 44 :: r' => parse_elements f r' (acc ++ [v])
          | 93 :: r' => Some (acc ++ [v], r')
          | _ => None
          end
      | None => None
      end
  end.

Definition decode (s : string) : option json :=
  let l := codes_of_string s in
  match parse_value (2 * length l + 2) l with
  | Some (v, r) => match skip_ws r with [] => Some v | _ => None end
  | None => None
  end.

Definition decode_or_raise (s : string) : outcome json :=
  match decode s with
  | Some v => Ok v
  | None => Raise (Exn "JSONDecodeError" "not decoded")
  end.

(** A runtime whose sets are iterated in insertion order. *)
Definition runtime : Runtime :=
  {| json_loads := decode_or_raise;
     set_iter := fun l => l;
     set_iter_perm := fun l => Permutation_refl l |}.

End Concrete.

(* ================================================================== *)
(** ** Predicates used in the statements *)

Module Statements.

Definition quoted (s : string) : string := dquote ++ s ++ dquote.

(** The five values of [query_type] the structure prompt asks for. *)
Definition query_types : list string :=
  ["coverage"; "exclusion"; "claim"; "premium"; "general"].

Definition valid_query_type (d : dict) : Prop :=
  exists t, dict_get "query_type" d = Some (JStr t) /\ In t query_types.

(** A generation call that raised, answered without a brace-delimited
    span, or answered with a span that [json.loads] rejects. *)
Definition unusable (rt : Runtime) (o : outcome string) : Prop :=
  match o with
  | Raise _ => True
  | Ok text =>
      match brace_span text with
      | None => True
      | Some span => is_ok (json_loads rt span) = false
      end
  end.

(** A generation call whose answer holds a span decoded to the object [o]. *)
Definition decodes_to (rt : Runtime) (r : outcome string) (o : dict) : Prop :=
  exists text span,
    r = Ok text /\ brace_span text = Some span /\ json_loads rt span = Ok (JObj o).

Definition field (k : string) (d : dict) (v : json) : Prop := dict_get k d = Some v.

(** The decision fields of the data-model invariant. *)
Definition rejected_without_coverage (d : dict) : Prop :=
  field "decision" d (JStr "REJECTED") /\ field "coverage_status" d (JStr "none").

(** [coverageStatus = none] implies [outcome = REJECTED], and
    [outcome = APPROVED] implies [coverageStatus] is [full] or [partial]. *)
Definition decision_invariant (d : dict) : Prop :=
  (field "coverage_status" d (JStr "none") -> field "decision" d (JStr "REJECTED"))
  /\ (field "decision" d (JStr "APPROVED") ->
      field "coverage_status" d (JStr "full") \/ field "coverage_status" d (JStr "partial")).

Definition patient_keys : list string :=
  ["age"; "gender"; "procedure"; "location"; "duration"].

(** Caller-supplied patient data, when used, has the five keys read by
    [make_decision]. *)
Definition patient_data_complete (patient_data : option dict) : Prop :=
  truthy patient_data = true ->
  forall k, In k patient_keys -> dict_get k (or_empty patient_data) <> None.

(** The first searches of a request, one per term, answer [rs] in order. *)
Fixpoint searches_answer (W : World) (n : nat) (terms : list string)
         (rs : list (list Document)) : Prop :=
  match terms, rs with
  | [], [] => True
  | t :: terms', r :: rs' =>
      similarity_search W n t 2 = Ok r /\ searches_answer W (S n) terms' rs'
  | _, _ => False
  end.

Definition search_calls (terms : list string) : list call :=
  map (fun t => SimilaritySearch t 2) terms.

Definition is_retrieval (c : call) : bool :=
  match c with GetRelevantDocuments _ => true | _ => false end.

(** The number of retriever calls in a log. *)
Definition retrievals (l : list call) : nat := length (filter is_retrieval l).

(** Every entry of a content-keyed dictionary sits under its own text. *)
Definition keyed_by_content (d : list (string * Document)) : Prop :=
  Forall (fun kv => page_content (snd kv) = fst kv) d.

End Statements.
Export Statements.

(* ================================================================== *)
(** ** Concrete requests *)

Module Scenario.

Definition obj (members : list (string * string)) : string :=
  "{" ++ String.concat ", " (map (fun m => quoted (fst m) ++ ": " ++ snd m) members) ++ "}".

(** A world in which only the decision chain and the retriever matter. *)
Definition world_of (decision : nat -> DecisionInputs -> outcome string)
           (docs : nat -> string -> outcome (list Document)) : World :=
  {| structure_chain_run := fun _ _ => Ok "";
     enhancement_chain_run := fun _ _ _ => Ok "";
     decision_chain_run := decision;
     get_relevant_documents := docs;
     similarity_search := fun _ _ _ => Ok [] |}.

(** Knee replacement, three months into the policy, no emergency. *)
Definition knee_query : string :=
  "46-year-old male needs knee replacement in Pune with 3 months policy duration".

Definition knee_patient : dict :=
  [ ("age", JInt 46); ("gender", JStr "M"); ("procedure", JStr "knee replacement");
    ("location", JStr "Pune"); ("duration", JInt 3) ].

Definition waiting_clause : Document :=
  Doc "Joint replacement is covered after 24 months of continuous cover." 0.
Definition emergency_clause : Document :=
  Doc "Emergency orthopedic care is payable at any time." 1.

Definition approved_text : string :=
  obj [ ("decision", quoted "APPROVED"); ("amount", "50000");
        ("justification", quoted "Surgery is covered");
        ("risk_factors", "[]"); ("coverage_status", quoted "full") ].

Definition approved_object : dict :=
  [ ("decision", JStr "APPROVED"); ("amount", JInt 50000);
    ("justification", JStr "Surgery is covered");
    ("risk_factors", JArr []); ("coverage_status", JStr "full") ].

(** The generation call approves in full. *)
Definition approving_world : World :=
  world_of (fun _ _ => Ok approved_text) (fun _ _ => Ok [waiting_clause]).

(** The generation call approves and reports no coverage. *)
Definition inconsistent_text : string :=
  obj [ ("decision", quoted "APPROVED"); ("coverage_status", quoted "none") ].
Definition inconsistent_world : World :=
  world_of (fun _ _ => Ok inconsistent_text) (fun _ _ => Ok [waiting_clause]).

(** The generation call times out. *)
Definition timeout : exn :=
  Exn "TimeoutError" "Deadline of 60s exceeded calling generativelanguage.googleapis.com".
Definition timeout_world : World :=
  {| structure_chain_run := fun _ _ => Raise timeout;
     enhancement_chain_run := fun _ _ _ => Raise timeout;
     decision_chain_run := fun _ _ => Raise timeout;
     get_relevant_documents := fun _ _ => Ok [waiting_clause];
     similarity_search := fun _ _ _ => Ok [waiting_clause] |}.

(** The index answers one clause to the first call and two afterwards. *)
Definition rejected_text : string :=
  obj [ ("decision", quoted "REJECTED"); ("amount", "null");
        ("justification", quoted "Waiting period of 24 months");
        ("risk_factors", "[]"); ("coverage_status", quoted "none") ].
Definition growing_index_world : World :=
  world_of (fun _ _ => Ok rejected_text)
           (fun n _ => if Nat.eqb n 0 then Ok [waiting_clause]
                       else Ok [waiting_clause; emergency_clause]).

(** The index cannot be reached. *)
Definition unreachable : exn := Exn "ConnectionError" "milvus: connection refused".
Definition unreachable_world : World :=
  {| structure_chain_run := fun _ _ => Ok "";
     enhancement_chain_run := fun _ _ _ => Ok "";
     decision_chain_run := fun _ _ => Ok "";
     get_relevant_documents := fun _ _ => Raise unreachable;
     similarity_search := fun _ _ _ => Raise unreachable |}.

(** Two phrases whose answers share the clause [B]. *)
Definition clause_A : Document := Doc "A" 0.
Definition clause_B : Document := Doc "B" 1.
Definition clause_B_again : Document := Doc "B" 2.
Definition clause_C : Document := Doc "C" 3.
Definition overlap_world : World :=
  {| structure_chain_run := fun _ _ => Ok "";
     enhancement_chain_run := fun _ _ _ => Ok "";
     decision_chain_run := fun _ _ => Ok "";
     get_relevant_documents := fun _ _ => Ok [];
     similarity_search := fun _ q _ =>
       if String.eqb q "p1" then Ok [clause_A; clause_B]
       else if String.eqb q "p2" then Ok [clause_B_again; clause_C]
       else Ok [] |}.

(** The structure call answers a query type outside the five. *)
Definition refund_text : string := obj [ ("query_type", quoted "refund") ].
Definition refund_world : World :=
  {| structure_chain_run := fun _ _ => Ok refund_text;
     enhancement_chain_run := fun _ _ _ => Ok "";
     decision_chain_run := fun _ _ => Ok "";
     get_relevant_documents := fun _ _ => Ok [];
     similarity_search := fun _ _ _ => Ok [] |}.

(** A parsed query whose generated [keywords] list is empty. *)
Definition no_keywords : dict :=
  [ ("keywords", JArr []); ("original_query", JStr "Is knee surgery covered?") ].

Definition two_keywords : dict :=
  [ ("keywords", JArr [JStr "knee"; JStr "surgery"]);
    ("original_query", JStr "Is knee surgery covered?") ].

(** An approved decision without a monetary figure. *)
Definition approved_without_amount : dict :=
  [ ("decision", JStr "APPROVED"); ("amount", JNull);
    ("justification", JStr "Covered; the amount could not be determined");
    ("risk_factors", JArr []); ("coverage_status", JStr "partial") ].

End Scenario.

(* ================================================================== *)
(** ** The remaining functions of the cited files *)

(** query_parser.py: [get_search_terms]. *)
Module QueryParserUtil.

Definition get_search_terms (rt : Runtime) (query : string) : M json :=
  parsed <- parse_insurance_query rt query ;;
  ret (dict_get_default "enhanced_search_phrases" (JArr [JStr query]) parsed).

End QueryParserUtil.
Export QueryParserUtil.

(** decision_engine.py: [batch_decisions] and the module-level functions. *)
Module DecisionUtil.

(** [for query in queries: results.append(self.make_decision(query))] *)
Fixpoint batch_loop (rt : Runtime) (queries : list string) (results : list dict)
  : M (list dict) :=
  match queries with
  | [] => ret results
  | query :: rest =>
      decision <- make_decision rt query None ;;
      batch_loop rt rest (results ++ [decision])%list
  end.

Definition batch_decisions (rt : Runtime) (queries : list string) : M (list dict) :=
  batch_loop rt queries [].

Definition process_claim_decision := make_decision.

(** The module-level [get_decision_summary(query, patient_data)]. *)
Definition get_decision_summary (rt : Runtime) (str_of : json -> string)
           (query : string) (patient_data : option dict) : M string :=
  decision <- process_claim_decision rt query patient_data ;;
  lift (DecisionEngine.get_decision_summary str_of decision).

End DecisionUtil.

(** main.py: the condition under which [process_insurance_query] asks for
    a claim decision. *)
Module Routing.

(** [query.lower()] for the two tests below.  Both patterns are ASCII, and
    the only characters outside [A-Z] whose lower case holds an ASCII
    letter are U+0130 (an [i] followed by U+0307) and U+212A (a [k]);
    neither can take part in an occurrence of [claim] or [surgery], so
    lowering the bytes of [A-Z] decides the tests as Python does. *)
Definition lower_char (c : ascii) : ascii :=
  let n := nat_of_ascii c in
  if ((65 <=? n) && (n <=? 90))%nat then ascii_of_nat (n + 32) else c.

Fixpoint lower (s : string) : string :=
  match s with
  | EmptyString => EmptyString
  | String c r => String (lower_char c) (lower r)
  end.

Fixpoint starts_with (pat s : string) : bool :=
  match pat, s with
  | EmptyString, _ => true
  | String a pat', String b s' => Ascii.eqb a b && starts_with pat' s'
  | String _ _, EmptyString => false
  end.

(** [pat in s] *)
Fixpoint contains (pat s : string) : bool :=
  starts_with pat s
  || match s with
     | EmptyString => false
     | String _ r => contains pat r
     end.

(** ["claim" in query.lower() or "surgery" in query.lower()] *)
Definition is_claim_query (query : string) : bool :=
  contains "claim" (lower query) || contains "surgery" (lower query).

End Routing.
Export Routing.

(** The ways the [try] block of [make_decision] ends. *)
Module Paths.

(** [make_decision] with the [except] clause applied to a result of its
    [try] block. *)
Definition or_error (query : string) (pd : dict) (r : outcome dict * list call)
  : outcome dict * list call :=
  match r with
  | (Ok d, l) => (Ok d, l)
  | (Raise e, l) => (Ok (error_decision query (Some pd) e), l)
  end.

Definition has_key (pd : dict) (k : string) : bool :=
  match dict_get k pd with Some _ => true | None => false end.

(** The first of the five keys that [patient_data] lacks. *)
Definition first_missing (pd : dict) : option string :=
  find (fun k => negb (has_key pd k)) patient_keys.

Definition key_error (k : string) : exn := Exn "KeyError" (squote ++ k ++ squote).

(** The keyword arguments of the generation call. *)
Definition prompt_inputs (pd : dict) (clauses : list string) : option DecisionInputs :=
  match dict_get "age" pd, dict_get "gender" pd, dict_get "procedure" pd,
        dict_get "location" pd, dict_get "duration" pd with
  | Some age, Some gender, Some procedure, Some location, Some duration =>
      Some (MkInputs (join two_newlines clauses) age gender procedure location duration)
  | _, _, _, _, _ => None
  end.

(** The value bound to [decision_data]. *)
Inductive decision_data (rt : Runtime) (text : string) : outcome json -> Prop :=
  | data_fallback :
      brace_span text = None -> decision_data rt text (Ok (JObj fallback_decision))
  | data_loaded span :
      brace_span text = Some span -> decision_data rt text (json_loads rt span).

Section Exits.
Variables (rt : Runtime) (W : World) (query : string) (pd : dict) (log : list call).

Let n := length log.
Let first_call := GetRelevantDocuments query.

Inductive decide_exit : outcome dict * list call -> Prop :=
  | exit_retrieval e :
      get_relevant_documents W n query = Raise e ->
      decide_exit (Raise e, (log ++ [first_call])%list)
  | exit_missing_key docs k :
      get_relevant_documents W n query = Ok docs ->
      first_missing pd = Some k ->
      decide_exit (Raise (key_error k), (log ++ [first_call])%list)
  | exit_generation docs inputs e :
      get_relevant_documents W n query = Ok docs ->
      prompt_inputs pd (map page_content docs) = Some inputs ->
      decision_chain_run W (S n) inputs = Raise e ->
      decide_exit (Raise e, (log ++ [first_call; DecisionRun inputs])%list)
  | exit_loads docs inputs text e :
      get_relevant_documents W n query = Ok docs ->
      prompt_inputs pd (map page_content docs) = Some inputs ->
      decision_chain_run W (S n) inputs = Ok text ->
      decision_data rt text (Raise e) ->
      decide_exit (Raise e, (log ++ [first_call; DecisionRun inputs])%list)
  | exit_not_object docs inputs text v e :
      get_relevant_documents W n query = Ok docs ->
      prompt_inputs pd (map page_content docs) = Some inputs ->
      decision_chain_run W (S n) inputs = Ok text ->
      decision_data rt text (Ok v) ->
      setitem v "patient_details" (JObj pd) = Raise e ->
      decide_exit (Raise e, (log ++ [first_call; DecisionRun inputs])%list)
  | exit_recount docs inputs text o e :
      get_relevant_documents W n query = Ok docs ->
      prompt_inputs pd (map page_content docs) = Some inputs ->
      decision_chain_run W (S n) inputs = Ok text ->
      decision_data rt text (Ok (JObj o)) ->
      get_relevant_documents W (S (S n)) query = Raise e ->
      decide_exit (Raise e, (log ++ [first_call; DecisionRun inputs; first_call])%list)
  | exit_decision docs inputs text o docs2 :
      get_relevant_documents W n query = Ok docs ->
      prompt_inputs pd (map page_content docs) = Some inputs ->
      decision_chain_run W (S n) inputs = Ok text ->
      decision_data rt text (Ok (JObj o)) ->
      get_relevant_documents W (S (S n)) query = Ok docs2 ->
      decide_exit
        (Ok (dict_set "clauses_count" (JInt (Z.of_nat (length docs2)))
               (dict_set "query" (JStr query)
                  (dict_set "patient_details" (JObj pd) o))),
         (log ++ [first_call; DecisionRun inputs; first_call])%list).
End Exits.

End Paths.
Export Paths.

(** Reading back what the code writes. *)
Module Reading.





(** The character [c] occurs in [s]. *)
Definition occurs (c : ascii) (s : string) : Prop := In c (list_ascii_of_string s).

Definition is_parser_call (c : call) : bool :=
  match c with StructureRun _ | EnhancementRun _ _ => true | _ => false end.

Definition is_generation (c : call) : bool :=
  match c with DecisionRun _ => true | _ => false end.

End Reading.
Export Reading.

(** Further concrete requests. *)
Module MoreScenarios.
Import Scenario.

(** The index answers the first call and is unreachable afterwards, while
    the generation call approves. *)
Definition flaky_index_world : World :=
  world_of (fun _ _ => Ok approved_text)
           (fun n _ => if Nat.eqb n 0 then Ok [waiting_clause] else Raise unreachable).

Definition knee_inputs : DecisionInputs :=
  MkInputs (page_content waiting_clause) (JInt 46) (JStr "M") (JStr "knee replacement")
           (JStr "Pune") (JInt 3).

(** The patient data read off a fallback record. *)
Definition no_patient : dict :=
  [ ("age", JNull); ("gender", JNull); ("procedure", JNull); ("location", JNull);
    ("duration", JNull) ].

(** The structure call fails and the enhancement call answers two lines. *)
Definition two_lines : string :=
  "knee surgery coverage" ++ String nl (" waiting period exclusions " ++ String nl "").
Definition enhancing_world : World :=
  {| structure_chain_run := fun _ _ => Raise timeout;
     enhancement_chain_run := fun _ _ _ => Ok two_lines;
     decision_chain_run := fun _ _ => Raise timeout;
     get_relevant_documents := fun _ _ => Ok [waiting_clause];
     similarity_search := fun _ _ _ => Ok [waiting_clause] |}.

(** A parsed query whose [keywords] is a string, not a list. *)
Definition string_keywords : dict :=
  [ ("keywords", JStr "knee surgery"); ("original_query", JStr "Is knee surgery covered?") ].


(** A decision whose outcome is spelled in lower case. *)
Definition approved_lower_case : dict :=
  [ ("decision", JStr "approved"); ("amount", JInt 50000);
    ("justification", JStr "Surgery is covered") ].

(** The generation call approves without an amount. *)
Definition no_amount_text : string :=
  obj [ ("decision", quoted "APPROVED"); ("amount", "null");
        ("justification", quoted "Surgery is covered") ].
Definition no_amount_object : dict :=
  [ ("decision", JStr "APPROVED"); ("amount", JNull);
    ("justification", JStr "Surgery is covered") ].
Definition no_amount_world : World :=
  world_of (fun _ _ => Ok no_amount_text) (fun _ _ => Ok [waiting_clause]).

(** [str] on the values that are strings. *)
Definition text_of (v : json) : string :=
  match v with JStr s => s | _ => EmptyString end.

End MoreScenarios.

(* ================================================================== *)
(** ** Dictionaries *)

Section DictFacts.
Context {V : Type}.
Implicit Types (d : list (string * V)) (k : string) (v : V).

Lemma dict_get_set_same k v d : dict_get k (dict_set k v d) = Some v.
Proof.
  induction d as [|[k' v'] r IH]; simpl.
  - now rewrite String.eqb_refl.
  - destruct (String.eqb k k') eqn:E; simpl; rewrite E; auto.
Qed.

Lemma dict_get_set_other k k' v d :
  k' <> k -> dict_get k' (dict_set k v d) = dict_get k' d.
Proof.
  intros Hne. induction d as [|[k0 v0] r IH]; simpl.
  - destruct (String.eqb k' k) eqn:E; auto.
    apply String.eqb_eq in E. contradiction.
  - destruct (String.eqb k k0) eqn:E; simpl.
    + apply String.eqb_eq in E. subst k0.
      destruct (String.eqb k' k) eqn:E'; auto.
      apply String.eqb_eq in E'. contradiction.
    + now rewrite IH.
Qed.

Lemma dict_keys_set k v d :
  dict_keys (dict_set k v d) =
  if existsb (String.eqb k) (dict_keys d) then dict_keys d else (dict_keys d ++ [k])%list.
Proof.
  unfold dict_keys.
  induction d as [|[k0 v0] r IH]; simpl; auto.
  destruct (String.eqb k k0) eqn:E; simpl; auto.
  rewrite IH.
  now destruct (existsb (String.eqb k) (map fst r)).
Qed.

Lemma dict_values_set_incl k v d x :
  In x (dict_values (dict_set k v d)) -> x = v \/ In x (dict_values d).
Proof.
  induction d as [|[k0 v0] r IH]; simpl.
  - intros [H|[]]; auto.
  - destruct (String.eqb k k0); simpl; intros [H|H]; auto.
    destruct (IH H); auto.
Qed.
End DictFacts.

(* ================================================================== *)
(** ** Running the monad *)

Lemma run_external {A} (c : call) (oracle : World -> nat -> outcome A) W log :
  external c oracle W log = (oracle W (length log), (log ++ [c])%list).
Proof. reflexivity. Qed.

Ltac run :=
  unfold try_except, bind, ret, lift, external; simpl.

(* ================================================================== *)
(** ** query_parser.py: [parse_query] *)

Lemma fallback_structure_equiv (query : string) :
  dict_equiv (dict_set "original_query" (JStr query) (fallback_structure query))
             (except_structure query).
Proof.
  intros k. simpl.
  destruct (String.eqb k "original_query") eqn:E.
  - apply String.eqb_eq in E. subst k. reflexivity.
  - repeat (destruct (String.eqb k _); [reflexivity|]). reflexivity.
Qed.

Lemma setitem_field (v : json) (k : string) (x : json) (d : dict) :
  setitem v k x = Ok d -> field k d x.
Proof.
  destruct v; simpl; try discriminate.
  intros [= <-]. apply dict_get_set_same.
Qed.

Lemma setitem_other (v : json) (k k' : string) (x : json) (d : dict) :
  setitem v k x = Ok d -> k' <> k ->
  exists o, v = JObj o /\ dict_get k' d = dict_get k' o.
Proof.
  destruct v; simpl; try discriminate.
  intros [= <-] Hne. eexists. split; [reflexivity|].
  now apply dict_get_set_other.
Qed.

(** What [parse_query] returns, by what the structure call did. *)
Lemma parse_query_cases (rt : Runtime) (W : World) (query : string) (log : list call) :
  exists d,
    parse_query rt query W log = (Ok d, (log ++ [StructureRun query])%list)
    /\ field "original_query" d (JStr query)
    /\ (unusable rt (structure_chain_run W (length log) query) ->
        dict_equiv d (except_structure query))
    /\ (forall o, decodes_to rt (structure_chain_run W (length log) query) o ->
        forall k, k <> "original_query" -> dict_get k d = dict_get k o).
Proof.
  unfold parse_query, structure_chain_call, unusable, decodes_to. run.
  destruct (structure_chain_run W (length log) query) as [text|e] eqn:Ecall; simpl.
  2:{ eexists. split; [reflexivity|]. split; [reflexivity|].
      split; [intros _ k; reflexivity|].
      intros o (t & s & Hr & _). discriminate. }
  destruct (brace_span text) as [span|] eqn:Espan; simpl.
  2:{ eexists. split; [reflexivity|]. split; [reflexivity|].
      split; [intros _; apply fallback_structure_equiv|].
      intros o (t & s & [= <-] & Hs & _). congruence. }
  destruct (json_loads rt span) as [v|e] eqn:Eloads; simpl.
  2:{ eexists. split; [reflexivity|]. split; [reflexivity|].
      split; [intros _ k; reflexivity|].
      intros o (t & s & [= <-] & Hs & Hl). congruence. }
  destruct (setitem v "original_query" (JStr query)) as [d|e] eqn:Eset; simpl.
  2:{ eexists. split; [reflexivity|]. split; [reflexivity|].
      split; [discriminate|].
      intros o (t & s & [= <-] & Hs & Hl).
      assert (v = JObj o) as -> by congruence. discriminate. }
  exists d. split; [reflexivity|]. split; [eapply setitem_field; eauto|].
  split; [discriminate|].
  intros o (t & s & [= <-] & Hs & Hl) k Hk.
  assert (v = JObj o) as -> by congruence.
  simpl in Eset. injection Eset as <-. now apply dict_get_set_other.
Qed.

(* ================================================================== *)
(** ** query_parser.py: [enhance_for_retrieval] and [process_query] *)

Lemma set_add_all_seen (seen l : list json) (x : json) :
  In x seen -> In x (set_add_all seen l).
Proof.
  revert seen. induction l as [|a r IH]; simpl; intros seen Hin; auto.
  destruct (py_mem a seen); apply IH; auto.
  apply in_or_app. now left.
Qed.

Lemma set_add_all_from (seen l : list json) (x : json) :
  In x (set_add_all seen l) -> In x seen \/ In x l.
Proof.
  revert seen. induction l as [|a r IH]; simpl; intros seen Hin; auto.
  destruct (py_mem a seen).
  - destruct (IH _ Hin); auto.
  - destruct (IH _ Hin) as [H|H]; auto.
    apply in_app_or in H. destruct H as [H|[H|[]]]; auto.
Qed.

Lemma py_eqb_str (s : string) (y : json) : py_eqb (JStr s) y = true -> y = JStr s.
Proof.
  destruct y; simpl; try discriminate.
  intros H. apply String.eqb_eq in H. now subst.
Qed.

Lemma set_add_all_str (seen l : list json) (s : string) :
  In (JStr s) l -> In (JStr s) (set_add_all seen l).
Proof.
  revert seen. induction l as [|a r IH]; simpl; intros seen Hin; [contradiction|].
  destruct Hin as [->|Hin].
  - destruct (py_mem (JStr s) seen) eqn:E.
    + apply set_add_all_seen. unfold py_mem in E.
      apply existsb_exists in E. destruct E as (y & Hy & Heq).
      apply py_eqb_str in Heq. now subst.
    + apply set_add_all_seen. apply in_or_app. right. now left.
  - destruct (py_mem a seen); auto.
Qed.

Lemma py_set_strings (l : list string) :
  py_set (map JStr l) = Ok (set_add_all [] (map JStr l)).
Proof.
  unfold py_set.
  replace (find (fun v => negb (hashable v)) (map JStr l)) with (@None json); auto.
  induction l; simpl; auto.
Qed.

Lemma set_add_all_nonempty (seen l : list json) :
  (seen ++ l)%list <> [] -> set_add_all seen l <> [].
Proof.
  revert seen. induction l as [|a r IH]; simpl; intros seen H.
  - now rewrite app_nil_r in H.
  - destruct (py_mem a seen) eqn:E.
    + apply IH. destruct seen; [discriminate E | discriminate].
    + apply IH. destruct seen; discriminate.
Qed.

Lemma perm_nonempty {A} (l l' : list A) : Permutation l l' -> l' <> [] -> l <> [].
Proof.
  intros HP Hne ->. apply Permutation_nil in HP. contradiction.
Qed.

(** What [enhance_for_retrieval] returns on a dictionary that has its
    [original_query]. *)
Lemma enhance_cases (rt : Runtime) (W : World) (q : dict) (log : list call) (oq : json) :
  field "original_query" q oq ->
  exists v,
    enhance_for_retrieval rt q W log = (Ok v, (log ++ [EnhancementRun oq q])%list)
    /\ (forall kws, field "keywords" q (JArr (map JStr kws)) ->
        exists r, v = JArr r
                  /\ (forall k, In k kws -> In (JStr k) r)
                  /\ (kws <> [] -> r <> [])
                  /\ (is_ok (enhancement_chain_run W (length log) oq q) = false ->
                      r = map JStr kws))
    /\ (dict_get "keywords" q = None ->
        is_ok (enhancement_chain_run W (length log) oq q) = false -> v = JArr [oq]).
Proof.
  unfold field. intros Hoq.
  unfold enhance_for_retrieval, enhancement_chain_call, getitem, dict_get_default.
  run. rewrite Hoq. simpl.
  destruct (enhancement_chain_run W (length log) oq q) as [text|e] eqn:Ecall; simpl.
  - destruct (dict_get "keywords" q) as [kv|] eqn:Ekw.
    + destruct (py_add_list kv (search_phrases text)) as [al|e] eqn:Eadd; simpl.
      * destruct (py_set al) as [u|e] eqn:Eset; simpl.
        -- eexists. split; [reflexivity|]. split; [|discriminate].
           intros kws [= ->]. simpl in Eadd. injection Eadd as <-.
           rewrite <- map_app, py_set_strings in Eset. injection Eset as <-.
           eexists. split; [reflexivity|].
           pose proof (set_iter_perm rt
                         (set_add_all [] (map JStr (kws ++ search_phrases text)))) as HP.
           split; [|split; [|discriminate]].
           ++ intros k Hk. eapply Permutation_in; [apply Permutation_sym, HP|].
              apply set_add_all_str, in_map, in_or_app. now left.
           ++ intros Hne. eapply perm_nonempty; [exact HP|].
              apply set_add_all_nonempty. simpl. destruct kws; [contradiction|discriminate].
        -- rewrite ?Ekw.
           eexists. split; [reflexivity|]. split; [|discriminate].
           intros kws [= ->]. simpl in Eadd. injection Eadd as <-.
           rewrite <- map_app, py_set_strings in Eset. discriminate.
      * rewrite ?Ekw.
        eexists. split; [reflexivity|]. split; [|discriminate].
        intros kws [= ->]. discriminate.
    + simpl.
      destruct (py_set (map JStr (search_phrases text))) as [u|e] eqn:Eset; simpl.
      * eexists. split; [reflexivity|]. split; discriminate.
      * rewrite py_set_strings in Eset. discriminate.
  - eexists. split; [reflexivity|]. split.
    + intros kws ->. eexists. split; [reflexivity|].
      split; [now apply in_map|]. split; auto.
      destruct kws; [contradiction|discriminate].
    + now intros ->.
Qed.

Lemma process_query_total (rt : Runtime) (W : World) (query : string) (log : list call) :
  exists d sd,
    process_query rt query W log
    = (Ok d, (log ++ [StructureRun query; EnhancementRun (JStr query) sd])%list).
Proof.
  unfold process_query. unfold bind at 1.
  destruct (parse_query_cases rt W query log) as (d & -> & Hoq & _).
  unfold bind.
  destruct (enhance_cases rt W d (log ++ [StructureRun query]) _ Hoq) as (v & -> & _).
  unfold ret. rewrite <- app_assoc. simpl. eauto.
Qed.

(* ================================================================== *)
(** ** main.py: search loop and de-duplication *)

Lemma search_loop_ok (W : World) (terms : list string) :
  forall rs acc log,
    searches_answer W (length log) terms rs ->
    search_loop terms acc W log
    = (Ok (acc ++ concat rs)%list, (log ++ search_calls terms)%list).
Proof.
  induction terms as [|t terms IH]; intros [|r rs] acc log H; simpl in H; try contradiction.
  - simpl. unfold ret. now rewrite !app_nil_r.
  - destruct H as [Hs Hrest]. simpl.
    unfold bind, query_vectorstore. rewrite run_external, Hs.
    rewrite IH with (rs := rs).
    + simpl. now rewrite <- !app_assoc.
    + rewrite length_app. simpl. now rewrite Nat.add_1_r.
Qed.

Lemma search_loop_raise (W : World) (pre : list string) :
  forall rs t post e acc log,
    searches_answer W (length log) pre rs ->
    similarity_search W (length log + length pre) t 2 = Raise e ->
    search_loop (pre ++ t :: post) acc W log
    = (Raise e, (log ++ search_calls pre ++ [SimilaritySearch t 2])%list).
Proof.
  induction pre as [|p pre IH]; intros [|r rs] t post e acc log H He;
    simpl in H; try contradiction.
  - simpl. unfold bind, query_vectorstore. rewrite run_external.
    rewrite Nat.add_0_r in He. now rewrite He.
  - destruct H as [Hs Hrest]. simpl.
    unfold bind, query_vectorstore. rewrite run_external, Hs.
    rewrite IH with (rs := rs) (e := e).
    + now rewrite <- !app_assoc.
    + rewrite length_app. simpl. now rewrite Nat.add_1_r.
    + rewrite length_app. simpl in *. rewrite Nat.add_1_r.
      now rewrite Nat.add_succ_r in He.
Qed.

Lemma keyed_set (doc : Document) (d : list (string * Document)) :
  keyed_by_content d -> keyed_by_content (dict_set (page_content doc) doc d).
Proof.
  unfold keyed_by_content.
  induction d as [|[k v] r IH]; simpl; intros H.
  - constructor; auto.
  - inversion H as [|? ? Hkv Hr]; subst. simpl in Hkv.
    destruct (String.eqb (page_content doc) k) eqn:E.
    + apply String.eqb_eq in E. constructor; auto.
    + constructor; auto.
Qed.

Lemma keyed_fold (l : list Document) :
  forall d, keyed_by_content d ->
            keyed_by_content
              (fold_left (fun d doc => dict_set (page_content doc) doc d) l d).
Proof.
  induction l as [|doc l IH]; simpl; intros d H; auto.
  apply IH. now apply keyed_set.
Qed.

Lemma keyed_values (d : list (string * Document)) :
  keyed_by_content d -> map page_content (dict_values d) = dict_keys d.
Proof.
  unfold keyed_by_content, dict_values, dict_keys.
  induction 1 as [|[k v] r Hkv Hr IH]; simpl in *; auto.
  now rewrite Hkv, IH.
Qed.

Lemma existsb_app_one (x k : string) (l : list string) :
  existsb (String.eqb x) (l ++ [k]) = existsb (String.eqb x) (k :: l).
Proof.
  rewrite existsb_app. simpl. rewrite orb_false_r. apply orb_comm.
Qed.

Lemma dedup_first_seen (l : list string) :
  forall seen seen',
    (forall x, existsb (String.eqb x) seen = existsb (String.eqb x) seen') ->
    dedup_first seen l = dedup_first seen' l.
Proof.
  induction l as [|a r IH]; simpl; intros seen seen' H; auto.
  rewrite H. destruct (existsb (String.eqb a) seen'); auto.
  f_equal. apply IH. intros x. simpl. now rewrite H.
Qed.

Lemma fold_keys (l : list Document) :
  forall d,
    dict_keys (fold_left (fun d doc => dict_set (page_content doc) doc d) l d)
    = (dict_keys d ++ dedup_first (dict_keys d) (map page_content l))%list.
Proof.
  induction l as [|doc l IH]; simpl; intros d.
  - now rewrite app_nil_r.
  - rewrite IH, dict_keys_set.
    destruct (existsb (String.eqb (page_content doc)) (dict_keys d)) eqn:E; auto.
    rewrite <- app_assoc. simpl. do 2 f_equal.
    apply dedup_first_seen. intros x. apply existsb_app_one.
Qed.

Lemma by_content_contents (l : list Document) :
  map page_content (dict_values (by_content l)) = dedup_first [] (map page_content l).
Proof.
  unfold by_content. rewrite keyed_values.
  - now rewrite fold_keys.
  - apply keyed_fold. constructor.
Qed.

Lemma fold_values_from (l : list Document) :
  forall d x,
    In x (dict_values (fold_left (fun d doc => dict_set (page_content doc) doc d) l d)) ->
    In x l \/ In x (dict_values d).
Proof.
  induction l as [|doc l IH]; simpl; intros d x H; auto.
  destruct (IH _ _ H) as [H'|H']; auto.
  destruct (dict_values_set_incl _ _ _ _ H'); subst; auto.
Qed.

Lemma firstn_In {A} (n : nat) (l : list A) (x : A) : In x (firstn n l) -> In x l.
Proof.
  revert l. induction n; intros [|a l]; simpl; intros H; try contradiction.
  destruct H; auto.
Qed.

(* ================================================================== *)
(** ** decision_engine.py: [make_decision] *)

(** [make_decision] binds [patient_data] without raising and without
    calling the retriever, then runs the rest of its [try] block, turning
    an exception into [error_decision]. *)
Lemma make_decision_bound (rt : Runtime) (W : World) (query : string)
      (patient_data : option dict) (log : list call) :
  exists pd pre,
    retrievals pre = 0
    /\ (patient_data_complete patient_data ->
        forall k, In k patient_keys -> dict_get k pd <> None)
    /\ make_decision rt query patient_data W log
       = match decide_with rt query pd W (log ++ pre)%list with
         | (Ok d, l) => (Ok d, l)
         | (Raise e, l) => (Ok (error_decision query (Some pd) e), l)
         end.
Proof.
  unfold make_decision. destruct (truthy patient_data) eqn:T.
  - exists (or_empty patient_data), []. rewrite app_nil_r.
    split; [reflexivity|]. split.
    + intros Hc. now apply Hc.
    + unfold try_except, bind, ret.
      destruct (decide_with rt query (or_empty patient_data) W log) as [[d|e] l];
        reflexivity.
  - destruct (process_query_total rt W query log) as (d & sd & Hp).
    exists (patient_data_of d), [StructureRun query; EnhancementRun (JStr query) sd].
    split; [reflexivity|]. split.
    + intros _ k Hk. simpl in Hk.
      repeat (destruct Hk as [<-|Hk]; [simpl; discriminate|]). contradiction.
    + unfold try_except, bind, ret, parse_insurance_query. rewrite Hp.
      destruct (decide_with rt query (patient_data_of d) W
                  (log ++ [StructureRun query; EnhancementRun (JStr query) sd])%list)
        as [[d'|e] l]; reflexivity.
Qed.

(** The two ways the [try] block of [make_decision] ends. *)
Lemma decide_with_cases (rt : Runtime) (W : World) (query : string) (pd : dict)
      (log : list call) :
  (exists e log', decide_with rt query pd W log = (Raise e, log'))
  \/ (exists docs1 inputs text v d1 docs2,
         decide_with rt query pd W log
         = (Ok (dict_set "clauses_count" (JInt (Z.of_nat (length docs2)))
                  (dict_set "query" (JStr query) d1)),
            (log ++ [GetRelevantDocuments query; DecisionRun inputs;
                     GetRelevantDocuments query])%list)
         /\ get_relevant_documents W (length log) query = Ok docs1
         /\ in_clauses inputs = join two_newlines (map page_content docs1)
         /\ decision_chain_run W (S (length log)) inputs = Ok text
         /\ ((brace_span text = None /\ v = JObj fallback_decision)
             \/ (exists span, brace_span text = Some span /\ json_loads rt span = Ok v))
         /\ setitem v "patient_details" (JObj pd) = Ok d1
         /\ get_relevant_documents W (S (S (length log))) query = Ok docs2).
Proof.
  unfold decide_with, retrieve_clauses, decision_chain_call.
  unfold bind, ret, lift. rewrite !run_external.
  destruct (get_relevant_documents W (length log) query) as [docs1|e] eqn:E1;
    [|left; eauto].
  destruct (getitem pd "age") as [age|e]; [|left; eauto].
  destruct (getitem pd "gender") as [gender|e]; [|left; eauto].
  destruct (getitem pd "procedure") as [procedure|e]; [|left; eauto].
  destruct (getitem pd "location") as [location|e]; [|left; eauto].
  destruct (getitem pd "duration") as [duration|e]; [|left; eauto].
  rewrite !run_external.
  replace (length (log ++ [GetRelevantDocuments query])) with (S (length log))
    by (rewrite length_app; simpl; now rewrite Nat.add_1_r).
  set (inputs := MkInputs _ age gender procedure location duration).
  destruct (decision_chain_run W (S (length log)) inputs) as [text|e] eqn:E2;
    [|left; eauto].
  assert (Hlen : length ((log ++ [GetRelevantDocuments query]) ++ [DecisionRun inputs])
                 = S (S (length log)))
    by (rewrite !length_app; simpl; rewrite !Nat.add_1_r; reflexivity).
  destruct (brace_span text) as [span|] eqn:Espan.
  - destruct (json_loads rt span) as [v|e] eqn:Eloads; [|left; eauto].
    destruct (setitem v "patient_details" (JObj pd)) as [d1|e] eqn:Eset; [|left; eauto].
    rewrite !run_external, Hlen.
    destruct (get_relevant_documents W (S (S (length log))) query) as [docs2|e] eqn:E3;
      [|left; eauto].
    right. exists docs1, inputs, text, v, d1, docs2.
    rewrite length_map, <- !app_assoc. simpl.
    repeat (split; [reflexivity || eassumption|]). split; [|split; auto].
    right. eauto.
  - simpl setitem. cbv iota beta.
    rewrite !run_external, Hlen.
    destruct (get_relevant_documents W (S (S (length log))) query) as [docs2|e] eqn:E3;
      [|left; eauto].
    right.
    exists docs1, inputs, text, (JObj fallback_decision),
      (dict_set "patient_details" (JObj pd) fallback_decision), docs2.
    rewrite length_map, <- !app_assoc. simpl.
    repeat (split; [reflexivity || eassumption|]). split; [|split; auto].
    left. auto.
Qed.

Lemma rejected_invariant (d : dict) : rejected_without_coverage d -> decision_invariant d.
Proof.
  unfold rejected_without_coverage, decision_invariant, field.
  intros [Hd Hc]. split; [auto|].
  rewrite Hd. discriminate.
Qed.

Lemma getitem_present (pd : dict) (k : string) :
  dict_get k pd <> None -> exists v, getitem pd k = Ok v.
Proof.
  unfold getitem. destruct (dict_get k pd); [eauto | contradiction].
Qed.

(** The [try] block when nothing fails and the response decodes to [o]. *)
Lemma decide_with_decoded (rt : Runtime) (W : World) (query : string) (pd : dict)
      (log : list call) (text span : string) (o : dict) :
  (forall k, In k patient_keys -> dict_get k pd <> None) ->
  (forall n, is_ok (get_relevant_documents W n query) = true) ->
  (forall n inputs, decision_chain_run W n inputs = Ok text) ->
  brace_span text = Some span ->
  json_loads rt span = Ok (JObj o) ->
  exists n log',
    decide_with rt query pd W log
    = (Ok (dict_set "clauses_count" (JInt n)
             (dict_set "query" (JStr query)
                (dict_set "patient_details" (JObj pd) o))), log').
Proof.
  intros Hkeys Hret Hllm Hspan Hloads.
  unfold decide_with, retrieve_clauses, decision_chain_call.
  unfold bind, ret, lift. rewrite !run_external.
  pose proof (Hret (length log)) as H1.
  destruct (get_relevant_documents W (length log) query) as [docs1|e]; [|discriminate].
  destruct (getitem_present pd "age") as (age & ->); [apply Hkeys; simpl; auto|].
  destruct (getitem_present pd "gender") as (gender & ->); [apply Hkeys; simpl; auto|].
  destruct (getitem_present pd "procedure") as (procedure & ->);
    [apply Hkeys; simpl; auto|].
  destruct (getitem_present pd "location") as (location & ->);
    [apply Hkeys; simpl; auto|].
  destruct (getitem_present pd "duration") as (duration & ->);
    [apply Hkeys; simpl; tauto|].
  rewrite !run_external, Hllm, Hspan, Hloads. simpl setitem. cbv iota beta.
  rewrite !run_external.
  match goal with
  | |- context [get_relevant_documents W ?n query] =>
      pose proof (Hret n) as H2; destruct (get_relevant_documents W n query); [|discriminate]
  end.
  eauto.
Qed.

(* ================================================================== *)
(** ** The claims about the query parser *)

Import Scenario.

(** C6. Whenever the structure call fails -- it raises, answers without a
    brace-delimited span, or answers a span that [json.loads] rejects --
    [parse_query] returns the fallback record: every typed field [None],
    [query_type] [general], [keywords] the query alone, [original_query] the
    query.  On every input it returns a record carrying the query and
    raises nothing. *)
Theorem C6_parse_query_falls_back (rt : Runtime) (W : World) (query : string)
        (log : list call) :
  exists d,
    parse_query rt query W log = (Ok d, (log ++ [StructureRun query])%list)
    /\ field "original_query" d (JStr query)
    /\ (unusable rt (structure_chain_run W (length log) query) ->
        dict_equiv d (except_structure query)).
Proof.
  destruct (parse_query_cases rt W query log) as (d & Hrun & Hoq & Hfall & _).
  exists d. auto.
Qed.

Lemma C6_witness :
  unusable Concrete.runtime (structure_chain_run timeout_world 0 knee_query)
  /\ exists d,
      parse_query Concrete.runtime knee_query timeout_world [] = (Ok d, [StructureRun knee_query])
      /\ dict_equiv d (except_structure knee_query).
Proof.
  split; [exact I|].
  destruct (C6_parse_query_falls_back Concrete.runtime timeout_world knee_query [])
    as (d & Hrun & _ & Hfall).
  exists d. split; [exact Hrun|]. apply Hfall. exact I.
Defined.

(** C7, as the code has it.  [parse_query] sets [query_type] to [general]
    on its fallback paths only; when the answer holds a span that decodes
    to an object, the record carries whatever that object has under
    [query_type], be it nothing or a value outside the five. *)
Theorem C7_query_type_is_not_validated (rt : Runtime) (W : World) (query : string)
        (log : list call) :
  exists d,
    parse_query rt query W log = (Ok d, (log ++ [StructureRun query])%list)
    /\ (unusable rt (structure_chain_run W (length log) query) ->
        field "query_type" d (JStr "general"))
    /\ (forall o, decodes_to rt (structure_chain_run W (length log) query) o ->
        dict_get "query_type" d = dict_get "query_type" o).
Proof.
  destruct (parse_query_cases rt W query log) as (d & Hrun & _ & Hfall & Hdec).
  exists d. split; [exact Hrun|]. split.
  - intros Hu. unfold field. now rewrite (Hfall Hu "query_type").
  - intros o Ho. apply Hdec; [exact Ho | discriminate].
Qed.

Lemma C7_witness :
  unusable Concrete.runtime (structure_chain_run timeout_world 0 knee_query)
  /\ decodes_to Concrete.runtime (structure_chain_run refund_world 0 knee_query)
                [("query_type", JStr "refund")]
  /\ (exists d,
         parse_query Concrete.runtime knee_query timeout_world [] = (Ok d, [StructureRun knee_query])
         /\ field "query_type" d (JStr "general"))
  /\ (exists d,
         parse_query Concrete.runtime knee_query refund_world [] = (Ok d, [StructureRun knee_query])
         /\ dict_get "query_type" d = Some (JStr "refund")).
Proof.
  assert (Hdec : decodes_to Concrete.runtime (structure_chain_run refund_world 0 knee_query)
                            [("query_type", JStr "refund")]).
  { exists refund_text, refund_text. repeat split; reflexivity. }
  split; [exact I|]. split; [exact Hdec|]. split.
  - destruct (C7_query_type_is_not_validated Concrete.runtime timeout_world knee_query [])
      as (d & Hrun & Hfall & _).
    exists d. split; [exact Hrun | apply Hfall; exact I].
  - destruct (C7_query_type_is_not_validated Concrete.runtime refund_world knee_query [])
      as (d & Hrun & _ & Hobj).
    exists d. split; [exact Hrun | exact (Hobj _ Hdec)].
Defined.

(** C7 as stated fails: the structure call answers
    [{"query_type": "refund"}] and the record carries [refund]. *)
Lemma C7_counterexample :
  exists d,
    parse_query Concrete.runtime knee_query refund_world [] = (Ok d, [StructureRun knee_query])
    /\ ~ valid_query_type d.
Proof.
  eexists. split; [vm_compute; reflexivity|].
  intros (t & Ht & Hin). vm_compute in Ht. injection Ht as <-.
  simpl in Hin. repeat (destruct Hin as [Hin|Hin]; [discriminate Hin|]). exact Hin.
Qed.

(** C8, as the code has it.  On a record that has its [original_query],
    [enhance_for_retrieval] raises nothing.  When [keywords] is a list of
    strings, the result is a list that holds every keyword, is non-empty
    when the keywords are, and on a failed enhancement call is the
    keywords unchanged -- an empty list stays empty.  The query alone is
    returned only when the record has no [keywords] key. *)
Theorem C8_enhance_keeps_keywords (rt : Runtime) (W : World) (q : dict)
        (log : list call) (oq : json) :
  field "original_query" q oq ->
  exists v,
    enhance_for_retrieval rt q W log = (Ok v, (log ++ [EnhancementRun oq q])%list)
    /\ (forall kws, field "keywords" q (JArr (map JStr kws)) ->
        exists r, v = JArr r
                  /\ (forall k, In k kws -> In (JStr k) r)
                  /\ (kws <> [] -> r <> [])
                  /\ (is_ok (enhancement_chain_run W (length log) oq q) = false ->
                      r = map JStr kws))
    /\ (dict_get "keywords" q = None ->
        is_ok (enhancement_chain_run W (length log) oq q) = false -> v = JArr [oq]).
Proof.
  apply enhance_cases.
Qed.

Lemma C8_witness :
  field "original_query" two_keywords (JStr "Is knee surgery covered?")
  /\ field "keywords" two_keywords (JArr (map JStr ["knee"; "surgery"]))
  /\ exists r,
      enhance_for_retrieval Concrete.runtime two_keywords timeout_world []
      = (Ok (JArr r), [EnhancementRun (JStr "Is knee surgery covered?") two_keywords])
      /\ r = map JStr ["knee"; "surgery"].
Proof.
  split; [reflexivity|]. split; [reflexivity|].
  destruct (C8_enhance_keeps_keywords Concrete.runtime timeout_world two_keywords []
              (JStr "Is knee surgery covered?") eq_refl) as (v & Hrun & Hkw & _).
  destruct (Hkw ["knee"; "surgery"] eq_refl) as (r & -> & _ & _ & Hfail).
  exists r. split; [exact Hrun | apply Hfail; reflexivity].
Defined.

(** C8 as stated fails: with an empty [keywords] list and a failed
    enhancement call the result is the empty list, not the query. *)
Lemma C8_counterexample :
  field "keywords" no_keywords (JArr [])
  /\ field "original_query" no_keywords (JStr "Is knee surgery covered?")
  /\ enhance_for_retrieval Concrete.runtime no_keywords timeout_world []
     = (Ok (JArr []), [EnhancementRun (JStr "Is knee surgery covered?") no_keywords]).
Proof.
  repeat split.
Qed.

(* ================================================================== *)
(** ** The claims about retrieval *)

(** C4. When the searches succeed, [query_rag_system] issues one search
    with limit 2 for each of the first three phrases, in order, and
    nothing else; the texts of [unique_docs] are the texts of the merged
    answers with every repeat of an earlier text dropped, cut to five; each
    document kept comes from the answers. *)
Theorem C4_unique_docs_dedup_first_seen (W : World) (terms : list string)
        (rs : list (list Document)) (log : list call) :
  searches_answer W (length log) (firstn 3 terms) rs ->
  exists docs,
    unique_docs terms W log = (Ok docs, (log ++ search_calls (firstn 3 terms))%list)
    /\ map page_content docs = firstn 5 (dedup_first [] (map page_content (concat rs)))
    /\ (forall d, In d docs -> In d (concat rs)).
Proof.
  intros H. unfold unique_docs, bind.
  rewrite (search_loop_ok W _ rs [] log H). unfold ret. rewrite app_nil_l.
  eexists. split; [reflexivity|]. split.
  - rewrite <- firstn_map. now rewrite by_content_contents.
  - intros d Hd. apply firstn_In in Hd.
    unfold by_content in Hd. apply fold_values_from in Hd.
    destruct Hd as [Hd|[]]. exact Hd.
Qed.

(** The phrases [p1; p2] answering [A; B] and [B; C] give [A; B; C]. *)
Lemma C4_witness :
  searches_answer overlap_world 0 (firstn 3 ["p1"; "p2"])
                  [[clause_A; clause_B]; [clause_B_again; clause_C]]
  /\ exists docs,
      unique_docs ["p1"; "p2"] overlap_world []
      = (Ok docs, [SimilaritySearch "p1" 2; SimilaritySearch "p2" 2])
      /\ map page_content docs = ["A"; "B"; "C"].
Proof.
  assert (H : searches_answer overlap_world (length (@nil call)) (firstn 3 ["p1"; "p2"])
                              [[clause_A; clause_B]; [clause_B_again; clause_C]])
    by (simpl; auto).
  split; [exact H|].
  destruct (C4_unique_docs_dedup_first_seen overlap_world ["p1"; "p2"] _ [] H)
    as (docs & Hrun & Hc & _).
  exists docs. split; [exact Hrun | exact Hc].
Defined.

(** C5, as the code has it.  A search that raises for one of the first
    three phrases ends [query_rag_system] with that exception, after the
    searches before it and none after it; [retrieve_clauses] likewise
    passes on the exception of the retriever. *)
Theorem C5_retrieval_failure_propagates (W : World) (pre : list string) (t : string)
        (post : list string) (rs : list (list Document)) (e : exn) (log : list call) :
  length pre < 3 ->
  searches_answer W (length log) pre rs ->
  similarity_search W (length log + length pre) t 2 = Raise e ->
  unique_docs (pre ++ t :: post) W log
  = (Raise e, (log ++ search_calls pre ++ [SimilaritySearch t 2])%list)
  /\ (forall query e',
         get_relevant_documents W (length log) query = Raise e' ->
         retrieve_clauses query W log = (Raise e', (log ++ [GetRelevantDocuments query])%list)).
Proof.
  intros Hlen Hpre He. split.
  - unfold unique_docs, bind.
    assert (Hfirst : firstn 3 (pre ++ t :: post)
                     = (pre ++ t :: firstn (2 - length pre) post)%list).
    { rewrite firstn_app, firstn_all2 by lia.
      replace (3 - length pre) with (S (2 - length pre)) by lia. reflexivity. }
    rewrite Hfirst.
    now rewrite (search_loop_raise W pre rs t _ e [] log Hpre He).
  - intros query e' Hq. unfold retrieve_clauses, bind.
    now rewrite run_external, Hq.
Qed.

Lemma C5_witness :
  length (@nil string) < 3
  /\ searches_answer unreachable_world 0 [] []
  /\ similarity_search unreachable_world 0 "knee surgery" 2 = Raise unreachable
  /\ unique_docs ["knee surgery"; "joint replacement"] unreachable_world []
     = (Raise unreachable, [SimilaritySearch "knee surgery" 2]).
Proof.
  split; [simpl; lia|]. split; [exact I|]. split; [reflexivity|].
  apply (proj1 (C5_retrieval_failure_propagates unreachable_world [] "knee surgery"
                  ["joint replacement"] [] unreachable []
                  (Nat.lt_0_succ 2) I eq_refl)).
Defined.

(** C5 as stated fails: with the index unreachable both retrieval
    functions raise. *)
Lemma C5_counterexample :
  unique_docs ["knee surgery"] unreachable_world []
  = (Raise unreachable, [SimilaritySearch "knee surgery" 2])
  /\ retrieve_clauses "knee surgery" unreachable_world []
     = (Raise unreachable, [GetRelevantDocuments "knee surgery"]).
Proof.
  split; reflexivity.
Qed.

(* ================================================================== *)
(** ** The claims about the decision engine *)

Lemma knee_patient_complete : patient_data_complete (Some knee_patient).
Proof.
  intros _ k Hk. simpl in Hk.
  repeat (destruct Hk as [<-|Hk]; [simpl; discriminate|]). contradiction.
Defined.

(** C1, as the code has it.  [make_decision] applies no coverage rule to
    what the generation call proposes: when the retriever answers, the
    patient data has its five keys and the answer holds a span that decodes
    to an object, the decision returned carries every field of that object
    unchanged, [decision] and [coverage_status] among them; only
    [patient_details], [query] and [clauses_count] are set by the code. *)
Theorem C1_generated_decision_is_returned (rt : Runtime) (W : World) (query : string)
        (patient_data : option dict) (log : list call) (text span : string) (o : dict) :
  patient_data_complete patient_data ->
  (forall n, is_ok (get_relevant_documents W n query) = true) ->
  (forall n inputs, decision_chain_run W n inputs = Ok text) ->
  brace_span text = Some span ->
  json_loads rt span = Ok (JObj o) ->
  exists d log',
    make_decision rt query patient_data W log = (Ok d, log')
    /\ (forall k, k <> "patient_details" -> k <> "query" -> k <> "clauses_count" ->
                  dict_get k d = dict_get k o).
Proof.
  intros Hc Hret Hllm Hspan Hloads.
  destruct (make_decision_bound rt W query patient_data log) as (pd & pre & _ & Hkeys & ->).
  destruct (decide_with_decoded rt W query pd (log ++ pre) text span o
              (Hkeys Hc) Hret Hllm Hspan Hloads) as (n & log' & ->).
  eexists. eexists. split; [reflexivity|].
  intros k H1 H2 H3. now rewrite !dict_get_set_other.
Qed.

Lemma C1_witness :
  patient_data_complete (Some knee_patient)
  /\ brace_span approved_text = Some approved_text
  /\ json_loads Concrete.runtime approved_text = Ok (JObj approved_object)
  /\ exists d log',
      make_decision Concrete.runtime knee_query (Some knee_patient) approving_world []
      = (Ok d, log')
      /\ dict_get "decision" d = Some (JStr "APPROVED")
      /\ dict_get "coverage_status" d = Some (JStr "full").
Proof.
  split; [exact knee_patient_complete|].
  split; [reflexivity|]. split; [reflexivity|].
  destruct (C1_generated_decision_is_returned Concrete.runtime approving_world knee_query
              (Some knee_patient) [] approved_text approved_text approved_object
              knee_patient_complete (fun _ => eq_refl) (fun _ _ => eq_refl)
              eq_refl eq_refl) as (d & log' & Hrun & Hsame).
  exists d, log'. split; [exact Hrun|]. split.
  - rewrite Hsame; [reflexivity | discriminate | discriminate | discriminate].
  - rewrite Hsame; [reflexivity | discriminate | discriminate | discriminate].
Defined.

(** C1 as stated fails: knee replacement, three months of cover, no
    emergency, and a generation call that approves: the decision returned
    is [APPROVED] with full coverage. *)
Lemma C1_counterexample :
  field "procedure" knee_patient (JStr "knee replacement")
  /\ field "duration" knee_patient (JInt 3)
  /\ (3 < 24)%Z
  /\ exists d log',
      make_decision Concrete.runtime knee_query (Some knee_patient) approving_world []
      = (Ok d, log')
      /\ field "decision" d (JStr "APPROVED")
      /\ field "coverage_status" d (JStr "full")
      /\ ~ rejected_without_coverage d.
Proof.
  split; [reflexivity|]. split; [reflexivity|]. split; [lia|].
  eexists. eexists. split; [vm_compute; reflexivity|].
  split; [reflexivity|]. split; [reflexivity|].
  intros [H _]. discriminate H.
Qed.

(** C2, as the code has it.  When every generation call is unusable,
    [make_decision] raises nothing and returns a decision with [decision]
    [REJECTED], [amount] [None] and [coverage_status] [none].  Its
    [justification] is either [System error: ] followed by [str(e)] of the
    exception caught, with [risk_factors] [["System error"]] and [str(e)]
    again under [error], or the fixed text of the no-span fallback with
    [risk_factors] [["Processing error"]] and no [error] key. *)
Theorem C2_unusable_generation_is_rejected (rt : Runtime) (W : World) (query : string)
        (patient_data : option dict) (log : list call) :
  (forall n inputs, unusable rt (decision_chain_run W n inputs)) ->
  exists d log',
    make_decision rt query patient_data W log = (Ok d, log')
    /\ field "decision" d (JStr "REJECTED")
    /\ field "amount" d JNull
    /\ field "coverage_status" d (JStr "none")
    /\ ((exists e,
            field "justification" d (JStr ("System error: " ++ exn_str e))
            /\ field "risk_factors" d (JArr [JStr "System error"])
            /\ field "error" d (JStr (exn_str e)))
        \/ (field "justification" d
                  (JStr "Unable to process claim - insufficient policy information")
            /\ field "risk_factors" d (JArr [JStr "Processing error"])
            /\ dict_get "error" d = None)).
Proof.
  intros Hbad.
  destruct (make_decision_bound rt W query patient_data log) as (pd & pre & _ & _ & ->).
  destruct (decide_with_cases rt W query pd (log ++ pre))
    as [(e & log' & ->)
       |(docs1 & inputs & text & v & d1 & docs2 & -> & _ & _ & Hcall & Hv & Hset & _)].
  - eexists. eexists. split; [reflexivity|].
    repeat (split; [reflexivity|]). left. exists e. repeat split.
  - specialize (Hbad (S (length (log ++ pre))) inputs).
    rewrite Hcall in Hbad. simpl in Hbad.
    destruct Hv as [[Hspan ->]|(span & Hspan & Hloads)].
    + simpl in Hset. injection Hset as <-.
      eexists. eexists. split; [reflexivity|].
      repeat (split; [reflexivity|]). right. repeat split.
    + rewrite Hspan, Hloads in Hbad. discriminate.
Qed.

Lemma C2_witness :
  (forall n inputs, unusable Concrete.runtime (decision_chain_run timeout_world n inputs))
  /\ exists d log',
      make_decision Concrete.runtime knee_query (Some knee_patient) timeout_world []
      = (Ok d, log')
      /\ field "decision" d (JStr "REJECTED")
      /\ field "amount" d JNull
      /\ field "coverage_status" d (JStr "none").
Proof.
  split; [intros n inputs; exact I|].
  destruct (C2_unusable_generation_is_rejected Concrete.runtime timeout_world knee_query
              (Some knee_patient) [] (fun _ _ => I))
    as (d & log' & Hrun & Hd & Ha & Hc & _).
  exists d, log'. auto.
Defined.

(** C2 as stated fails: the generation call times out and the decision
    returned has [risk_factors] [["System error"]] and carries the text of
    the exception in [justification] and under [error]. *)
Lemma C2_counterexample :
  decision_chain_run timeout_world 1
    (MkInputs (page_content waiting_clause) (JInt 46) (JStr "M") (JStr "knee replacement")
              (JStr "Pune") (JInt 3)) = Raise timeout
  /\ exists d log',
      make_decision Concrete.runtime knee_query (Some knee_patient) timeout_world []
      = (Ok d, log')
      /\ field "risk_factors" d (JArr [JStr "System error"])
      /\ ~ field "risk_factors" d (JArr [JStr "processing error"])
      /\ field "justification" d (JStr ("System error: " ++ exn_str timeout))
      /\ field "error" d (JStr (exn_str timeout)).
Proof.
  split; [reflexivity|].
  eexists. eexists. split; [vm_compute; reflexivity|].
  split; [reflexivity|]. split; [|split; reflexivity].
  intros H. discriminate H.
Qed.

(** C3, as the code has it.  [make_decision] raises nothing.  The
    decisions it builds itself, on its fallback paths, have [decision]
    [REJECTED] and [coverage_status] [none] and meet the invariant; any
    other decision returned carries the [decision] and [coverage_status] of
    the object decoded from a generation call, unchanged and unchecked. *)
Theorem C3_invariant_on_fallbacks_only (rt : Runtime) (W : World) (query : string)
        (patient_data : option dict) (log : list call) :
  exists d log',
    make_decision rt query patient_data W log = (Ok d, log')
    /\ ((rejected_without_coverage d /\ decision_invariant d)
        \/ (exists n inputs o,
               decodes_to rt (decision_chain_run W n inputs) o
               /\ dict_get "decision" d = dict_get "decision" o
               /\ dict_get "coverage_status" d = dict_get "coverage_status" o)).
Proof.
  destruct (make_decision_bound rt W query patient_data log) as (pd & pre & _ & _ & ->).
  destruct (decide_with_cases rt W query pd (log ++ pre))
    as [(e & log' & ->)
       |(docs1 & inputs & text & v & d1 & docs2 & -> & _ & _ & Hcall & Hv & Hset & _)].
  - eexists. eexists. split; [reflexivity|]. left.
    assert (H : rejected_without_coverage (error_decision query (Some pd) e))
      by (split; reflexivity).
    split; [exact H | now apply rejected_invariant].
  - destruct Hv as [[Hspan ->]|(span & Hspan & Hloads)].
    + simpl in Hset. injection Hset as <-.
      eexists. eexists. split; [reflexivity|]. left.
      match goal with
      | |- rejected_without_coverage ?d /\ _ =>
          assert (H : rejected_without_coverage d) by (split; reflexivity)
      end.
      split; [exact H | now apply rejected_invariant].
    + destruct (setitem_other v "patient_details" "decision" _ d1 Hset)
        as (o & -> & Hdec); [discriminate|].
      simpl in Hset. injection Hset as <-.
      eexists. eexists. split; [reflexivity|]. right.
      exists (S (length (log ++ pre))), inputs, o. split.
      * exists text, span. auto.
      * rewrite !dict_get_set_other by discriminate. auto.
Qed.

(** C3 as stated fails: the generation call answers [APPROVED] with
    [coverage_status] [none] and that is what [make_decision] returns. *)
Lemma C3_counterexample :
  exists d log',
    make_decision Concrete.runtime knee_query (Some knee_patient) inconsistent_world []
    = (Ok d, log')
    /\ field "decision" d (JStr "APPROVED")
    /\ field "coverage_status" d (JStr "none")
    /\ ~ decision_invariant d.
Proof.
  eexists. eexists. split; [vm_compute; reflexivity|].
  split; [reflexivity|]. split; [reflexivity|].
  intros [H _]. specialize (H eq_refl). discriminate H.
Qed.

(** C9, as the code has it.  A decision that carries [clauses_count] comes
    from a request that called the retriever twice on the query: the first
    answer is the clause text of the prompt, the second, obtained after the
    generation call, is the one whose length is stored.  A decision of the
    [except] path has no [clauses_count]. *)
Theorem C9_clauses_count_is_requeried (rt : Runtime) (W : World) (query : string)
        (patient_data : option dict) (log : list call) :
  exists d log',
    make_decision rt query patient_data W log = (Ok d, log')
    /\ (dict_get "clauses_count" d = None
        \/ exists before inputs docs1 docs2,
            log' = (log ++ before ++ [GetRelevantDocuments query; DecisionRun inputs;
                                      GetRelevantDocuments query])%list
            /\ retrievals before = 0
            /\ get_relevant_documents W (length (log ++ before)) query = Ok docs1
            /\ in_clauses inputs = join two_newlines (map page_content docs1)
            /\ get_relevant_documents W (S (S (length (log ++ before)))) query = Ok docs2
            /\ field "clauses_count" d (JInt (Z.of_nat (length docs2)))).
Proof.
  destruct (make_decision_bound rt W query patient_data log) as (pd & pre & Hpre & _ & ->).
  destruct (decide_with_cases rt W query pd (log ++ pre))
    as [(e & log' & ->)
       |(docs1 & inputs & text & v & d1 & docs2 & -> & H1 & Hin & _ & _ & _ & H2)].
  - eexists. eexists. split; [reflexivity|]. left. reflexivity.
  - eexists. eexists. split; [reflexivity|]. right.
    exists pre, inputs, docs1, docs2.
    rewrite <- app_assoc. repeat (split; [reflexivity || assumption|]).
    apply dict_get_set_same.
Qed.

(** C9 as stated fails: the index answers one clause to the first call
    and two to the second; the prompt holds one clause and
    [clauses_count] is 2, after two retrievals. *)
Lemma C9_counterexample :
  exists d inputs,
    make_decision Concrete.runtime knee_query (Some knee_patient) growing_index_world []
    = (Ok d, [GetRelevantDocuments knee_query; DecisionRun inputs;
              GetRelevantDocuments knee_query])
    /\ in_clauses inputs = join two_newlines [page_content waiting_clause]
    /\ field "clauses_count" d (JInt 2)
    /\ retrievals [GetRelevantDocuments knee_query; DecisionRun inputs;
                   GetRelevantDocuments knee_query] = 2.
Proof.
  eexists. eexists. split; [vm_compute; reflexivity|].
  repeat split.
Qed.

(** C10. The data model allows a decision with [decision] [APPROVED] and
    [amount] [None]; on it [get_decision_summary] raises the [TypeError] of
    formatting [None] with [:,] instead of returning a summary. *)
Theorem C10_summary_raises_without_amount :
  exists decision,
    field "decision" decision (JStr "APPROVED")
    /\ field "amount" decision JNull
    /\ decision_invariant decision
    /\ forall str_of,
        get_decision_summary str_of decision
        = Raise (Exn "TypeError" "unsupported format string passed to NoneType.__format__").
Proof.
  exists approved_without_amount.
  split; [reflexivity|]. split; [reflexivity|]. split.
  - split; [discriminate | right; reflexivity].
  - reflexivity.
Qed.

(* ================================================================== *)
(** ** The paths through [make_decision] *)

Import MoreScenarios.
Open Scope list_scope.

Lemma log_length_1 (log : list call) (c : call) : length (log ++ [c]) = S (length log).
Proof. rewrite length_app. simpl. apply Nat.add_1_r. Qed.

Lemma log_length_2 (log : list call) (c1 c2 : call) :
  length ((log ++ [c1]) ++ [c2]) = S (S (length log)).
Proof. now rewrite !log_length_1. Qed.

Ltac missing_key :=
  eapply exit_missing_key; [eassumption|];
  unfold first_missing, has_key; simpl;
  repeat match goal with H : dict_get _ _ = _ |- _ => rewrite H end;
  reflexivity.

(** [decide_with] ends in one of the seven ways of [decide_exit]. *)
Lemma decide_with_exits (rt : Runtime) (W : World) (query : string) (pd : dict)
      (log : list call) :
  decide_exit rt W query pd log (decide_with rt query pd W log).
Proof.
  unfold decide_with, retrieve_clauses, decision_chain_call.
  unfold bind, ret, lift. rewrite !run_external.
  destruct (get_relevant_documents W (length log) query) as [docs|e] eqn:E1;
    [|now apply exit_retrieval].
  unfold getitem.
  destruct (dict_get "age" pd) as [age|] eqn:Ea; [|missing_key].
  destruct (dict_get "gender" pd) as [gender|] eqn:Eg; [|missing_key].
  destruct (dict_get "procedure" pd) as [procedure|] eqn:Ep; [|missing_key].
  destruct (dict_get "location" pd) as [location|] eqn:El; [|missing_key].
  destruct (dict_get "duration" pd) as [duration|] eqn:Ed; [|missing_key].
  rewrite !run_external, log_length_1.
  set (inputs := MkInputs _ age gender procedure location duration).
  assert (Hin : prompt_inputs pd (map page_content docs) = Some inputs)
    by (unfold prompt_inputs; now rewrite Ea, Eg, Ep, El, Ed).
  destruct (decision_chain_run W (S (length log)) inputs) as [text|e] eqn:E2.
  2:{ rewrite <- app_assoc. eapply exit_generation; eauto. }
  destruct (brace_span text) as [span|] eqn:Es.
  - destruct (json_loads rt span) as [v|e] eqn:Ev.
    2:{ rewrite <- app_assoc. eapply exit_loads; eauto.
        rewrite <- Ev. now apply data_loaded. }
    assert (Hdata : decision_data rt text (Ok v))
      by (rewrite <- Ev; now apply data_loaded).
    destruct (setitem v "patient_details" (JObj pd)) as [d1|e] eqn:Eset.
    2:{ rewrite <- app_assoc. eapply exit_not_object; eauto. }
    destruct v; simpl in Eset; try discriminate. injection Eset as <-.
    rewrite !run_external, log_length_2.
    destruct (get_relevant_documents W (S (S (length log))) query) as [docs2|e] eqn:E3.
    + rewrite length_map, <- !app_assoc. simpl. eapply exit_decision; eauto.
    + rewrite <- !app_assoc. simpl. eapply exit_recount; eauto.
  - assert (Hdata : decision_data rt text (Ok (JObj fallback_decision)))
      by now apply data_fallback.
    simpl setitem. cbv iota beta.
    rewrite !run_external, log_length_2.
    destruct (get_relevant_documents W (S (S (length log))) query) as [docs2|e] eqn:E3.
    + rewrite length_map, <- !app_assoc. simpl app.
      change [("decision", JStr "REJECTED"); ("amount", JNull);
              ("justification",
               JStr "Unable to process claim - insufficient policy information");
              ("risk_factors", JArr [JStr "Processing error"]);
              ("coverage_status", JStr "none"); ("patient_details", JObj pd)]
        with (dict_set "patient_details" (JObj pd) fallback_decision).
      eapply exit_decision; eauto.
    + rewrite <- !app_assoc. simpl app. eapply exit_recount; eauto.
Qed.

Lemma or_empty_some (pd : dict) : or_empty (Some pd) = pd.
Proof. now destruct pd. Qed.

(** [process_query] is [parse_query], then [enhance_for_retrieval] on its
    result, then one assignment. *)
Lemma process_query_shape (rt : Runtime) (W : World) (query : string) (log : list call) :
  exists sd v,
    parse_query rt query W log = (Ok sd, (log ++ [StructureRun query])%list)
    /\ enhance_for_retrieval rt sd W (log ++ [StructureRun query])
       = (Ok v, (log ++ [StructureRun query; EnhancementRun (JStr query) sd])%list)
    /\ process_query rt query W log
       = (Ok (dict_set "enhanced_search_phrases" v sd),
          (log ++ [StructureRun query; EnhancementRun (JStr query) sd])%list).
Proof.
  destruct (parse_query_cases rt W query log) as (sd & Hparse & Hoq & _).
  destruct (enhance_cases rt W sd (log ++ [StructureRun query]) _ Hoq) as (v & Henh & _).
  rewrite <- app_assoc in Henh. simpl in Henh.
  exists sd, v. split; [exact Hparse|]. split; [exact Henh|].
  unfold process_query, bind. rewrite Hparse, Henh. reflexivity.
Qed.

(** [make_decision] is its [try] block after [patient_data] is bound,
    with the [except] clause applied. *)
Lemma make_decision_paths (rt : Runtime) (W : World) (query : string)
      (patient_data : option dict) (log : list call) :
  exists pd pre,
    make_decision rt query patient_data W log
    = or_error query pd (decide_with rt query pd W (log ++ pre))
    /\ ((truthy patient_data = true /\ pd = or_empty patient_data /\ pre = [])
        \/ (truthy patient_data = false
            /\ exists sd v,
                parse_query rt query W log = (Ok sd, (log ++ [StructureRun query])%list)
                /\ pre = [StructureRun query; EnhancementRun (JStr query) sd]
                /\ pd = patient_data_of (dict_set "enhanced_search_phrases" v sd))).
Proof.
  unfold make_decision, or_error. destruct (truthy patient_data) eqn:T.
  - exists (or_empty patient_data), []. rewrite app_nil_r. split.
    + unfold try_except, bind, ret.
      destruct (decide_with rt query (or_empty patient_data) W log) as [[d|e] l];
        reflexivity.
    + left. auto.
  - destruct (process_query_shape rt W query log) as (sd & v & Hparse & _ & Hp).
    exists (patient_data_of (dict_set "enhanced_search_phrases" v sd)),
      [StructureRun query; EnhancementRun (JStr query) sd].
    split.
    + unfold try_except, bind, ret, parse_insurance_query. rewrite Hp.
      destruct (decide_with rt query _ W _) as [[d'|e] l]; reflexivity.
    + right. split; [reflexivity|]. exists sd, v. auto.
Qed.

(** Facts that hold on every path of the [try] block. *)
Lemma or_error_facts (rt : Runtime) (W : World) (query : string) (pd : dict)
      (log : list call) :
  exists d new,
    or_error query pd (decide_with rt query pd W log) = (Ok d, (log ++ new)%list)
    /\ field "query" d (JStr query)
    /\ field "patient_details" d (JObj pd)
    /\ retrievals new <= 2
    /\ length (filter is_generation new) <= 1
    /\ filter is_parser_call new = []
    /\ hd_error new = Some (GetRelevantDocuments query).
Proof.
  generalize (decide_with_exits rt W query pd log).
  generalize (decide_with rt query pd W log). intros r Hr.
  destruct Hr; simpl or_error.
  1-6: eexists; eexists; (split; [reflexivity|]);
       (split; [reflexivity|]);
       (split; [destruct pd; reflexivity|]);
       (split; [cbv; lia|]); (split; [cbv; lia|]); split; reflexivity.
  eexists. eexists. split; [reflexivity|]. split; [|split].
  - unfold field. rewrite dict_get_set_other by discriminate. apply dict_get_set_same.
  - unfold field. rewrite !dict_get_set_other by discriminate. apply dict_get_set_same.
  - split; [cbv; lia|]. split; [cbv; lia|]. split; reflexivity.
Qed.

Lemma retrievals_cons_parser (c : call) (l : list call) :
  is_parser_call c = true -> retrievals (c :: l) = retrievals l.
Proof. destruct c; simpl; try discriminate; reflexivity. Qed.

Lemma generations_cons_parser (c : call) (l : list call) :
  is_parser_call c = true -> filter is_generation (c :: l) = filter is_generation l.
Proof. destruct c; simpl; try discriminate; reflexivity. Qed.

(** What every call of [make_decision] does, whatever the world answers. *)
Lemma make_decision_facts (rt : Runtime) (W : World) (query : string)
      (patient_data : option dict) (log : list call) :
  exists d pd new,
    make_decision rt query patient_data W log = (Ok d, log ++ new)
    /\ field "query" d (JStr query)
    /\ field "patient_details" d (JObj pd)
    /\ (truthy patient_data = true -> pd = or_empty patient_data)
    /\ retrievals new <= 2
    /\ length (filter is_generation new) <= 1
    /\ (truthy patient_data = true ->
        filter is_parser_call new = []
        /\ hd_error new = Some (GetRelevantDocuments query))
    /\ (truthy patient_data = false ->
        exists sd rest,
          new = StructureRun query :: EnhancementRun (JStr query) sd :: rest
          /\ filter is_parser_call rest = []
          /\ hd_error rest = Some (GetRelevantDocuments query)).
Proof.
  destruct (make_decision_paths rt W query patient_data log)
    as (pd & pre & -> & [(T & -> & ->)|(T & sd & v & _ & -> & ->)]).
  - rewrite app_nil_r.
    destruct (or_error_facts rt W query (or_empty patient_data) log)
      as (d & new & -> & Hq & Hp & Hr & Hg & Hs & Hh).
    exists d, (or_empty patient_data), new.
    split; [reflexivity|]. split; [exact Hq|]. split; [exact Hp|].
    split; [reflexivity|]. split; [exact Hr|]. split; [exact Hg|].
    split; [auto|]. rewrite T. discriminate.
  - set (pre := [StructureRun query; EnhancementRun (JStr query) sd]).
    destruct (or_error_facts rt W query
                (patient_data_of (dict_set "enhanced_search_phrases" v sd)) (log ++ pre))
      as (d & new & -> & Hq & Hp & Hr & Hg & Hs & Hh).
    exists d, (patient_data_of (dict_set "enhanced_search_phrases" v sd)), (pre ++ new).
    rewrite app_assoc. split; [reflexivity|]. split; [exact Hq|]. split; [exact Hp|].
    split; [rewrite T; discriminate|].
    split; [exact Hr|]. split; [exact Hg|].
    split; [rewrite T; discriminate|].
    intros _. exists sd, new. auto.
Qed.

(** X1. Whatever the world answers and whatever the generated object
    holds, [make_decision] raises nothing and returns a decision whose
    [query] is the query asked and whose [patient_details] is the patient
    data used: the caller's dictionary when it is a non-empty one. *)
Theorem X1_decision_carries_query_and_patient (rt : Runtime) (W : World)
        (query : string) (patient_data : option dict) (log : list call) :
  exists d pd log',
    make_decision rt query patient_data W log = (Ok d, log')
    /\ field "query" d (JStr query)
    /\ field "patient_details" d (JObj pd)
    /\ (forall given, patient_data = Some given -> given <> [] -> pd = given).
Proof.
  destruct (make_decision_facts rt W query patient_data log)
    as (d & pd & new & Hrun & Hq & Hp & Hpd & _).
  exists d, pd, (log ++ new). repeat (split; [assumption|]).
  intros given -> Hne. destruct given as [|x r]; [contradiction|].
  now apply Hpd.
Qed.

Lemma X1_witness :
  Some knee_patient = Some knee_patient
  /\ knee_patient <> []
  /\ exists d log',
      make_decision Concrete.runtime knee_query (Some knee_patient) approving_world []
      = (Ok d, log')
      /\ field "query" d (JStr knee_query)
      /\ field "patient_details" d (JObj knee_patient).
Proof.
  split; [reflexivity|]. split; [discriminate|].
  destruct (X1_decision_carries_query_and_patient Concrete.runtime approving_world
              knee_query (Some knee_patient) [])
    as (d & pd & log' & Hrun & Hq & Hp & Hgiven).
  exists d, log'. split; [exact Hrun|]. split; [exact Hq|].
  rewrite <- (Hgiven knee_patient eq_refl ltac:(discriminate)). exact Hp.
Defined.

(** X2. One call of [make_decision] calls the retriever at most twice and
    the decision chain at most once.  With a non-empty [patient_data] it
    calls neither parser chain and starts with the retriever; with [None]
    or an empty dictionary it first runs the structure chain and the
    enhancement chain on the query, once each, then the retriever. *)
Theorem X2_calls_of_make_decision (rt : Runtime) (W : World) (query : string)
        (patient_data : option dict) (log : list call) :
  exists d new,
    make_decision rt query patient_data W log = (Ok d, log ++ new)
    /\ retrievals new <= 2
    /\ length (filter is_generation new) <= 1
    /\ (truthy patient_data = true ->
        filter is_parser_call new = []
        /\ hd_error new = Some (GetRelevantDocuments query))
    /\ (truthy patient_data = false ->
        exists sd rest,
          new = StructureRun query :: EnhancementRun (JStr query) sd :: rest
          /\ filter is_parser_call rest = []
          /\ hd_error rest = Some (GetRelevantDocuments query)).
Proof.
  destruct (make_decision_facts rt W query patient_data log)
    as (d & pd & new & Hrun & _ & _ & _ & Hr & Hg & Ht & Hf).
  exists d, new. auto.
Qed.

Lemma X2_witness :
  truthy (Some knee_patient) = true
  /\ truthy (Some (@nil (string * json))) = false
  /\ (exists d new,
         make_decision Concrete.runtime knee_query (Some knee_patient) approving_world []
         = (Ok d, new)
         /\ filter is_parser_call new = [])
  /\ (exists d sd rest,
         make_decision Concrete.runtime knee_query (Some []) approving_world []
         = (Ok d, StructureRun knee_query :: EnhancementRun (JStr knee_query) sd :: rest)).
Proof.
  split; [reflexivity|]. split; [reflexivity|]. split.
  - destruct (X2_calls_of_make_decision Concrete.runtime approving_world knee_query
                (Some knee_patient) []) as (d & new & Hrun & _ & _ & Ht & _).
    exists d, new. split; [exact Hrun | exact (proj1 (Ht eq_refl))].
  - destruct (X2_calls_of_make_decision Concrete.runtime approving_world knee_query
                (Some []) []) as (d & new & Hrun & _ & _ & _ & Hf).
    destruct (Hf eq_refl) as (sd & rest & Hnew & _).
    exists d, sd, rest. rewrite <- Hnew. exact Hrun.
Defined.

Lemma prompt_inputs_no_missing (pd : dict) (clauses : list string) (i : DecisionInputs) :
  prompt_inputs pd clauses = Some i -> first_missing pd = None.
Proof.
  unfold prompt_inputs, first_missing, has_key. simpl.
  destruct (dict_get "age" pd); [|discriminate].
  destruct (dict_get "gender" pd); [|discriminate].
  destruct (dict_get "procedure" pd); [|discriminate].
  destruct (dict_get "location" pd); [|discriminate].
  destruct (dict_get "duration" pd); [|discriminate].
  reflexivity.
Qed.

Lemma decision_data_functional (rt : Runtime) (text : string) (r1 r2 : outcome json) :
  decision_data rt text r1 -> decision_data rt text r2 -> r1 = r2.
Proof.
  intros H1 H2. destruct H1, H2; congruence.
Qed.

(** Identifies the answers that two hypotheses give for one call. *)
Ltac same_answers :=
  repeat match goal with
         | H1 : ?x = Ok ?a, H2 : ?x = Ok ?b |- _ =>
             is_var b; lazymatch a with b => fail | _ => idtac end;
             assert (b = a) by congruence; subst b; clear H2
         | H1 : ?x = Some ?a, H2 : ?x = Some ?b |- _ =>
             is_var b; lazymatch a with b => fail | _ => idtac end;
             assert (b = a) by congruence; subst b; clear H2
         end.

(** Closes the paths of [decide_exit] that the hypotheses rule out. *)
Ltac wrong_path :=
  same_answers;
  solve [ congruence
        | match goal with
          | H : prompt_inputs _ _ = Some _ |- _ =>
              apply prompt_inputs_no_missing in H; congruence
          end
        | match goal with
          | H1 : decision_data ?rt ?t _, H2 : decision_data ?rt ?t _ |- _ =>
              pose proof (decision_data_functional _ _ _ _ H1 H2); congruence
          end ].

(** X3. When a non-empty [patient_data] lacks one of the five keys and the
    retriever answers, [make_decision] returns the [except] decision for
    the [KeyError] of the first missing key, after the one retrieval and
    without calling the decision chain. *)
Theorem X3_missing_patient_key (rt : Runtime) (W : World) (query : string)
        (pd : dict) (log : list call) (docs : list Document) (k : string) :
  pd <> [] ->
  get_relevant_documents W (length log) query = Ok docs ->
  first_missing pd = Some k ->
  make_decision rt query (Some pd) W log
  = (Ok (error_decision query (Some pd) (key_error k)),
     log ++ [GetRelevantDocuments query]).
Proof.
  intros Hne Hdocs Hk.
  destruct (make_decision_paths rt W query (Some pd) log)
    as (pd' & pre & -> & [(_ & -> & ->)|(T & _)]).
  2:{ destruct pd; [contradiction | discriminate T]. }
  rewrite or_empty_some, app_nil_r.
  generalize (decide_with_exits rt W query pd log).
  generalize (decide_with rt query pd W log). intros r Hr.
  destruct Hr; try wrong_path.
  simpl. congruence.
Qed.

Lemma X3_witness :
  [("age", JInt 46)] <> []
  /\ get_relevant_documents approving_world 0 knee_query = Ok [waiting_clause]
  /\ first_missing [("age", JInt 46)] = Some "gender"
  /\ exists d,
      make_decision Concrete.runtime knee_query (Some [("age", JInt 46)]) approving_world []
      = (Ok d, [GetRelevantDocuments knee_query])
      /\ field "justification" d (JStr "System error: 'gender'").
Proof.
  split; [discriminate|]. split; [reflexivity|]. split; [reflexivity|].
  eexists. split.
  - apply (X3_missing_patient_key Concrete.runtime approving_world knee_query
             [("age", JInt 46)] [] [waiting_clause] "gender");
      [discriminate | reflexivity | reflexivity].
  - reflexivity.
Defined.

(** X4. When the first retrieval raises, [make_decision] returns the
    [except] decision for that exception and never calls the decision
    chain: the request ends with that retrieval. *)
Theorem X4_retrieval_failure_skips_generation (rt : Runtime) (W : World)
        (query : string) (patient_data : option dict) (log : list call) (e : exn) :
  (forall n, get_relevant_documents W n query = Raise e) ->
  exists pd pre,
    make_decision rt query patient_data W log
    = (Ok (error_decision query (Some pd) e), log ++ pre ++ [GetRelevantDocuments query])
    /\ filter is_generation (pre ++ [GetRelevantDocuments query]) = []
    /\ retrievals pre = 0.
Proof.
  intros Hfail.
  destruct (make_decision_paths rt W query patient_data log)
    as (pd & pre & -> & Hpre).
  exists pd, pre.
  assert (Hcalls : filter is_generation (pre ++ [GetRelevantDocuments query]) = []
                   /\ retrievals pre = 0).
  { destruct Hpre as [(_ & _ & ->)|(_ & sd & v & _ & -> & _)]; split; reflexivity. }
  split; [|exact Hcalls].
  pose proof (Hfail (length (log ++ pre))) as H0.
  generalize (decide_with_exits rt W query pd (log ++ pre)).
  generalize (decide_with rt query pd W (log ++ pre)). intros r Hr.
  destruct Hr; try wrong_path.
  simpl. rewrite <- app_assoc. congruence.
Qed.

Lemma X4_witness :
  (forall n, get_relevant_documents unreachable_world n knee_query = Raise unreachable)
  /\ make_decision Concrete.runtime knee_query (Some knee_patient) unreachable_world []
     = (Ok (error_decision knee_query (Some knee_patient) unreachable),
        [GetRelevantDocuments knee_query]).
Proof.
  split; [reflexivity|].
  destruct (X4_retrieval_failure_skips_generation Concrete.runtime unreachable_world
              knee_query (Some knee_patient) [] unreachable (fun _ => eq_refl))
    as (pd & pre & Hrun & _).
  reflexivity.
Defined.

(** X5. A generated decision is lost when the second retrieval, the one
    made to count the clauses, raises: whatever the decoded object
    proposed, [make_decision] returns the [except] decision for that
    exception, [REJECTED] with no coverage. *)
Theorem X5_recount_failure_discards_decision (rt : Runtime) (W : World)
        (query : string) (pd : dict) (log : list call) (docs : list Document)
        (inputs : DecisionInputs) (text span : string) (o : dict) (e : exn) :
  pd <> [] ->
  get_relevant_documents W (length log) query = Ok docs ->
  prompt_inputs pd (map page_content docs) = Some inputs ->
  decision_chain_run W (S (length log)) inputs = Ok text ->
  brace_span text = Some span ->
  json_loads rt span = Ok (JObj o) ->
  get_relevant_documents W (S (S (length log))) query = Raise e ->
  make_decision rt query (Some pd) W log
  = (Ok (error_decision query (Some pd) e),
     log ++ [GetRelevantDocuments query; DecisionRun inputs; GetRelevantDocuments query]).
Proof.
  intros Hne Hdocs Hin Hgen Hspan Hloads Hfail.
  assert (Hdata : decision_data rt text (Ok (JObj o)))
    by (rewrite <- Hloads; now apply data_loaded).
  destruct (make_decision_paths rt W query (Some pd) log)
    as (pd' & pre & -> & [(_ & -> & ->)|(T & _)]).
  2:{ destruct pd; [contradiction | discriminate T]. }
  rewrite or_empty_some, app_nil_r.
  generalize (decide_with_exits rt W query pd log).
  generalize (decide_with rt query pd W log). intros r Hr.
  destruct Hr; try wrong_path.
  - same_answers.
    pose proof (decision_data_functional _ _ _ _ Hdata H2) as Hv.
    injection Hv as <-. discriminate.
  - same_answers. simpl. congruence.
Qed.

Lemma X5_witness :
  knee_patient <> []
  /\ prompt_inputs knee_patient (map page_content [waiting_clause]) = Some knee_inputs
  /\ brace_span approved_text = Some approved_text
  /\ json_loads Concrete.runtime approved_text = Ok (JObj approved_object)
  /\ get_relevant_documents flaky_index_world 2 knee_query = Raise unreachable
  /\ exists d log',
      make_decision Concrete.runtime knee_query (Some knee_patient) flaky_index_world []
      = (Ok d, log')
      /\ field "decision" d (JStr "REJECTED")
      /\ field "error" d (JStr (exn_str unreachable)).
Proof.
  split; [discriminate|]. split; [reflexivity|]. split; [reflexivity|].
  split; [reflexivity|]. split; [reflexivity|].
  eexists. eexists. split.
  - apply (X5_recount_failure_discards_decision Concrete.runtime flaky_index_world
             knee_query knee_patient [] [waiting_clause] knee_inputs approved_text
             approved_text approved_object unreachable);
      [discriminate | reflexivity | reflexivity | reflexivity | reflexivity
       | reflexivity | reflexivity].
  - split; reflexivity.
Defined.

Lemma parsed_fallback_patient (v : json) (sd : dict) (query : string) :
  dict_equiv sd (except_structure query) ->
  patient_data_of (dict_set "enhanced_search_phrases" v sd) = no_patient.
Proof.
  intros H. unfold patient_data_of, dict_get_default.
  rewrite !dict_get_set_other by discriminate.
  rewrite !H. reflexivity.
Qed.

(** X6. When [make_decision] has to parse the query itself and the
    structure call is unusable, the decision chain is asked with [None] for
    all five patient fields, not with the [Unknown] default, and the
    decision records these [None] values as its [patient_details]. *)
Theorem X6_fallback_parse_gives_none_fields (rt : Runtime) (W : World)
        (query : string) (patient_data : option dict) (log : list call)
        (docs : list Document) :
  truthy patient_data = false ->
  unusable rt (structure_chain_run W (length log) query) ->
  get_relevant_documents W (S (S (length log))) query = Ok docs ->
  exists d sd rest,
    make_decision rt query patient_data W log
    = (Ok d,
       log ++ StructureRun query :: EnhancementRun (JStr query) sd
           :: GetRelevantDocuments query
           :: DecisionRun (MkInputs (join two_newlines (map page_content docs))
                                    JNull JNull JNull JNull JNull)
           :: rest)
    /\ field "patient_details" d (JObj no_patient).
Proof.
  intros T Hbad Hdocs.
  destruct (make_decision_paths rt W query patient_data log)
    as (pd & pre & -> & [(T' & _)|(_ & sd & v & Hparse & -> & ->)]); [congruence|].
  destruct (parse_query_cases rt W query log) as (sd' & Hparse' & _ & Hfall & _).
  assert (sd' = sd) by congruence. subst sd'.
  rewrite (parsed_fallback_patient v sd query (Hfall Hbad)).
  assert (Hlen : length (log ++ [StructureRun query; EnhancementRun (JStr query) sd])
                 = S (S (length log)))
    by (rewrite length_app; simpl; lia).
  generalize (decide_with_exits rt W query no_patient
                (log ++ [StructureRun query; EnhancementRun (JStr query) sd])).
  generalize (decide_with rt query no_patient W
                (log ++ [StructureRun query; EnhancementRun (JStr query) sd])).
  intros r Hr. destruct Hr as [e H1|docs0 k H1 H2|docs0 inputs e H1 H2 H3
                              |docs0 inputs text e H1 H2 H3 H4
                              |docs0 inputs text v0 e H1 H2 H3 H4 H5
                              |docs0 inputs text o e H1 H2 H3 H4 H5
                              |docs0 inputs text o docs2 H1 H2 H3 H4 H5];
    rewrite Hlen in H1.
  - congruence.
  - discriminate H2.
  - same_answers. injection H2 as <-.
    simpl. eexists. exists sd, []. rewrite <- app_assoc. split; reflexivity.
  - same_answers. injection H2 as <-.
    simpl. eexists. exists sd, []. rewrite <- app_assoc. split; reflexivity.
  - same_answers. injection H2 as <-.
    simpl. eexists. exists sd, []. rewrite <- app_assoc. split; reflexivity.
  - same_answers. injection H2 as <-.
    simpl. eexists. exists sd, [GetRelevantDocuments query].
    rewrite <- app_assoc. split; reflexivity.
  - same_answers. injection H2 as <-.
    simpl. eexists. exists sd, [GetRelevantDocuments query].
    rewrite <- app_assoc. split; [reflexivity|].
    unfold field. rewrite !dict_get_set_other by discriminate. apply dict_get_set_same.
Qed.

Lemma X6_witness :
  truthy None = false
  /\ unusable Concrete.runtime (structure_chain_run timeout_world 0 knee_query)
  /\ get_relevant_documents timeout_world 2 knee_query = Ok [waiting_clause]
  /\ exists d sd rest,
      make_decision Concrete.runtime knee_query None timeout_world []
      = (Ok d,
         StructureRun knee_query :: EnhancementRun (JStr knee_query) sd
           :: GetRelevantDocuments knee_query
           :: DecisionRun (MkInputs (page_content waiting_clause)
                                    JNull JNull JNull JNull JNull)
           :: rest)
      /\ field "patient_details" d (JObj no_patient).
Proof.
  split; [reflexivity|]. split; [exact I|]. split; [reflexivity|].
  exact (X6_fallback_parse_gives_none_fields Concrete.runtime timeout_world knee_query
           None [] [waiting_clause] eq_refl I eq_refl).
Defined.

(* ================================================================== *)
(** ** decision_engine.py: [batch_decisions] and the summaries *)

Lemma batch_loop_facts (rt : Runtime) (W : World) (queries : list string) :
  forall results log,
  exists ds new,
    DecisionUtil.batch_loop rt queries results W log = (Ok (results ++ ds), log ++ new)
    /\ Forall2 (fun q d => field "query" d (JStr q)) queries ds
    /\ length (filter is_parser_call new) = 2 * length queries
    /\ retrievals new <= 2 * length queries.
Proof.
  induction queries as [|q rest IH]; intros results log.
  - exists [], []. simpl. unfold ret. rewrite !app_nil_r. repeat split; auto.
  - simpl. unfold bind.
    destruct (make_decision_facts rt W q None log)
      as (d & pd & new & -> & Hq & _ & _ & Hr & _ & _ & Hf).
    destruct (Hf eq_refl) as (sd & tail & -> & Htail & _).
    destruct (IH (results ++ [d]) (log ++ StructureRun q :: EnhancementRun (JStr q) sd :: tail))
      as (ds & new' & -> & Hall & Hp & Hr').
    exists (d :: ds), ((StructureRun q :: EnhancementRun (JStr q) sd :: tail) ++ new').
    rewrite <- !app_assoc. split; [reflexivity|]. split; [constructor; auto|]. split.
    + rewrite filter_app, length_app, Hp. simpl. rewrite Htail. simpl. lia.
    + unfold retrievals in *. rewrite filter_app, length_app. simpl in *. lia.
Qed.

(** X7. [batch_decisions] raises nothing and returns one decision per
    query, in the order of the queries, each carrying its query; every
    query is parsed anew (two parser calls per query) and the retriever is
    called at most twice per query. *)
Theorem X7_batch_one_decision_per_query (rt : Runtime) (W : World)
        (queries : list string) (log : list call) :
  exists ds new,
    DecisionUtil.batch_decisions rt queries W log = (Ok ds, log ++ new)
    /\ Forall2 (fun q d => field "query" d (JStr q)) queries ds
    /\ length ds = length queries
    /\ length (filter is_parser_call new) = 2 * length queries
    /\ retrievals new <= 2 * length queries.
Proof.
  destruct (batch_loop_facts rt W queries [] log) as (ds & new & Hrun & Hall & Hp & Hr).
  exists ds, new. split; [exact Hrun|]. split; [exact Hall|].
  split; [symmetry; eapply Forall2_length; eauto | auto].
Qed.

Section SummaryFacts.
Variable str_of : json -> string.

Lemma is_approved_spec (v : json) : is_approved v = true <-> v = JStr "APPROVED".
Proof.
  destruct v; simpl; split; try discriminate.
  - intros H. apply String.eqb_eq in H. now subst.
  - intros [= ->]. reflexivity.
Qed.

(** X8. Any decision whose [decision] field is not exactly [APPROVED] --
    [REJECTED], but also [approved] in lower case or a value that is not a
    string -- is summarised as a rejected claim with its justification;
    the amount is not looked at and may be missing. *)
Theorem X8_summary_of_anything_but_APPROVED (decision : dict) (v j : json) :
  field "decision" decision v ->
  v <> JStr "APPROVED" ->
  field "justification" decision j ->
  DecisionEngine.get_decision_summary str_of decision
  = Ok ("❌ CLAIM REJECTED - " ++ str_of j)%string.
Proof.
  unfold field, DecisionEngine.get_decision_summary, getitem.
  intros Hd Hv Hj. rewrite Hd.
  destruct (is_approved v) eqn:E.
  - apply is_approved_spec in E. contradiction.
  - now rewrite Hj.
Qed.

End SummaryFacts.

Lemma X8_witness :
  field "decision" approved_lower_case (JStr "approved")
  /\ JStr "approved" <> JStr "APPROVED"
  /\ field "justification" approved_lower_case (JStr "Surgery is covered")
  /\ DecisionEngine.get_decision_summary text_of approved_lower_case
     = Ok "❌ CLAIM REJECTED - Surgery is covered"%string.
Proof.
  split; [reflexivity|]. split; [discriminate|]. split; [reflexivity|].
  apply (X8_summary_of_anything_but_APPROVED text_of
           approved_lower_case (JStr "approved") (JStr "Surgery is covered"));
    [reflexivity | discriminate | reflexivity].
Defined.


(** *** The amount as written and as read back *)















(* ================================================================== *)
(** ** query_parser.py: the remaining behaviour *)

Lemma py_eqb_refl (x : json) : hashable x = true -> py_eqb x x = true.
Proof.
  destruct x; simpl; try discriminate; intros _; auto.
  - apply Bool.eqb_reflx.
  - apply Z.eqb_refl.
  - apply String.eqb_refl.
Qed.

Lemma set_add_all_nodup (l : list json) :
  forall seen,
    (forall x, In x l -> hashable x = true) ->
    NoDup seen -> NoDup (set_add_all seen l).
Proof.
  induction l as [|a r IH]; simpl; intros seen Hh Hs; auto.
  destruct (py_mem a seen) eqn:E; apply IH; auto.
  apply (Permutation_NoDup (Permutation_cons_append seen a)).
  constructor; auto.
  intros Hin. unfold py_mem in E.
  assert (existsb (py_eqb a) seen = true); [|congruence].
  apply existsb_exists. exists a. split; [exact Hin|].
  apply py_eqb_refl. apply Hh. now left.
Qed.

Lemma search_phrases_nonempty (text s : string) :
  In s (search_phrases text) -> s <> EmptyString.
Proof.
  unfold search_phrases. intros H. apply in_map_iff in H.
  destruct H as (line & <- & Hline). apply filter_In in Hline.
  destruct Hline as [_ Hne]. destruct (strip line); [discriminate Hne | discriminate].
Qed.

(** [enhance_for_retrieval] when the enhancement call answers. *)
Lemma enhance_success (rt : Runtime) (W : World) (q : dict) (log : list call)
      (oq : json) (kws : list string) (text : string) :
  field "original_query" q oq ->
  field "keywords" q (JArr (map JStr kws)) ->
  enhancement_chain_run W (length log) oq q = Ok text ->
  exists r,
    enhance_for_retrieval rt q W log = (Ok (JArr r), log ++ [EnhancementRun oq q])
    /\ NoDup r
    /\ (forall x, In x r <->
                  exists s, x = JStr s /\ (In s kws \/ In s (search_phrases text))).
Proof.
  unfold field. intros Hoq Hkw Hcall.
  unfold enhance_for_retrieval, enhancement_chain_call, getitem, dict_get_default.
  unfold try_except, bind, ret, lift. rewrite Hoq, run_external, Hcall, Hkw.
  simpl py_add_list. cbv iota beta.
  rewrite <- map_app, py_set_strings.
  eexists. split; [reflexivity|].
  pose proof (set_iter_perm rt (set_add_all [] (map JStr (kws ++ search_phrases text))))
    as HP.
  split.
  - apply (Permutation_NoDup (Permutation_sym HP)).
    apply set_add_all_nodup; [|constructor].
    intros x Hx. apply in_map_iff in Hx. destruct Hx as (s & <- & _). reflexivity.
  - intros x. split.
    + intros Hx. apply (Permutation_in _ HP) in Hx.
      apply set_add_all_from in Hx. destruct Hx as [[]|Hx].
      apply in_map_iff in Hx. destruct Hx as (s & <- & Hs).
      exists s. split; [reflexivity|]. now apply in_app_or.
    + intros (s & -> & Hs).
      apply (Permutation_in _ (Permutation_sym HP)).
      apply set_add_all_str, in_map, in_or_app. exact Hs.
Qed.

(** X12. When the enhancement call answers and [keywords] is a list of
    strings, [enhance_for_retrieval] returns a list without repeats whose
    elements are exactly the keywords and the non-blank lines of the
    answer, stripped; none of the added phrases is empty. *)
Theorem X12_enhanced_phrases_exactly (rt : Runtime) (W : World) (q : dict)
        (log : list call) (oq : json) (kws : list string) (text : string) :
  field "original_query" q oq ->
  field "keywords" q (JArr (map JStr kws)) ->
  enhancement_chain_run W (length log) oq q = Ok text ->
  exists r,
    enhance_for_retrieval rt q W log = (Ok (JArr r), log ++ [EnhancementRun oq q])
    /\ NoDup r
    /\ (forall x, In x r <->
                  exists s, x = JStr s /\ (In s kws \/ In s (search_phrases text)))
    /\ (forall s, In s (search_phrases text) -> s <> EmptyString).
Proof.
  intros Hoq Hkw Hcall.
  destruct (enhance_success rt W q log oq kws text Hoq Hkw Hcall) as (r & Hrun & Hnd & Hin).
  exists r. repeat (split; [assumption|]).
  intros s. apply search_phrases_nonempty.
Qed.

Lemma X12_witness :
  field "original_query" two_keywords (JStr "Is knee surgery covered?")
  /\ field "keywords" two_keywords (JArr (map JStr ["knee"; "surgery"]%string))
  /\ enhancement_chain_run enhancing_world 0 (JStr "Is knee surgery covered?") two_keywords
     = Ok two_lines
  /\ search_phrases two_lines = ["knee surgery coverage"; "waiting period exclusions"]%string
  /\ exists r,
      enhance_for_retrieval Concrete.runtime two_keywords enhancing_world []
      = (Ok (JArr r), [EnhancementRun (JStr "Is knee surgery covered?") two_keywords])
      /\ NoDup r.
Proof.
  split; [reflexivity|]. split; [reflexivity|]. split; [reflexivity|].
  split; [reflexivity|].
  destruct (X12_enhanced_phrases_exactly Concrete.runtime enhancing_world two_keywords []
              (JStr "Is knee surgery covered?") ["knee"; "surgery"]%string two_lines
              eq_refl eq_refl eq_refl) as (r & Hrun & Hnd & _).
  exists r. split; [exact Hrun | exact Hnd].
Defined.

(** X13. On a dictionary without [original_query],
    [enhance_for_retrieval] raises [KeyError]: the lookup fails in the
    [try] block and again in the [except] clause; no external call is
    made. *)
Theorem X13_enhance_without_original_query (rt : Runtime) (W : World) (q : dict)
        (log : list call) :
  dict_get "original_query" q = None ->
  enhance_for_retrieval rt q W log = (Raise (key_error "original_query"), log).
Proof.
  intros H.
  unfold enhance_for_retrieval, getitem, try_except, bind, lift. now rewrite H.
Qed.

Lemma X13_witness :
  dict_get "original_query" [("keywords", JArr [JStr "knee"])] = None
  /\ enhance_for_retrieval Concrete.runtime [("keywords", JArr [JStr "knee"])]
       approving_world []
     = (Raise (Exn "KeyError" "'original_query'"), []).
Proof.
  split; [reflexivity|].
  apply (X13_enhance_without_original_query Concrete.runtime approving_world
           [("keywords", JArr [JStr "knee"])] [] eq_refl).
Defined.

Lemma find_unhashable_app (l : list json) (phrases : list string) :
  existsb (fun v => negb (hashable v)) l = true ->
  exists v, find (fun v => negb (hashable v)) (l ++ map JStr phrases) = Some v.
Proof.
  induction l as [|a r IH]; simpl; [discriminate|].
  destruct (negb (hashable a)); simpl; eauto.
Qed.

(** X14. When [keywords] is not a list, or is a list that holds a list or
    a dictionary, [enhance_for_retrieval] returns the value of [keywords]
    as it is, whether or not the enhancement call answered: the phrases
    generated are dropped and the result need not be a list. *)
Theorem X14_unusable_keywords_returned (rt : Runtime) (W : World) (q : dict)
        (log : list call) (oq kv : json) :
  field "original_query" q oq ->
  field "keywords" q kv ->
  (forall l, kv = JArr l -> existsb (fun v => negb (hashable v)) l = true) ->
  enhance_for_retrieval rt q W log = (Ok kv, log ++ [EnhancementRun oq q]).
Proof.
  unfold field. intros Hoq Hkw Hbad.
  unfold enhance_for_retrieval, enhancement_chain_call, getitem, dict_get_default.
  unfold try_except, bind, ret, lift. rewrite Hoq, run_external, Hkw.
  destruct (enhancement_chain_run W (length log) oq q) as [text|e]; [|reflexivity].
  destruct kv as [| | | |l|]; try reflexivity.
  simpl py_add_list. cbv iota beta. unfold py_set.
  destruct (find_unhashable_app l (search_phrases text) (Hbad l eq_refl)) as (v & ->).
  reflexivity.
Qed.

Lemma X14_witness :
  field "original_query" string_keywords (JStr "Is knee surgery covered?")
  /\ field "keywords" string_keywords (JStr "knee surgery")
  /\ (forall l, JStr "knee surgery" = JArr l ->
                existsb (fun v => negb (hashable v)) l = true)
  /\ enhance_for_retrieval Concrete.runtime string_keywords enhancing_world []
     = (Ok (JStr "knee surgery"),
        [EnhancementRun (JStr "Is knee surgery covered?") string_keywords]).
Proof.
  assert (H : forall l, JStr "knee surgery" = JArr l ->
                        existsb (fun v => negb (hashable v)) l = true)
    by (intros l Hl; discriminate Hl).
  split; [reflexivity|]. split; [reflexivity|]. split; [exact H|].
  apply (X14_unusable_keywords_returned Concrete.runtime enhancing_world string_keywords []
           (JStr "Is knee surgery covered?") (JStr "knee surgery") eq_refl eq_refl H).
Defined.

(** X15. [process_query] raises nothing and makes exactly two calls: the
    structure chain on the query, then the enhancement chain on the parsed
    record.  Its result is that record with [enhanced_search_phrases] set
    to what [enhance_for_retrieval] returned, and it carries the query as
    [original_query]. *)
Theorem X15_process_query_shape (rt : Runtime) (W : World) (query : string)
        (log : list call) :
  exists d sd v,
    process_query rt query W log
    = (Ok d, log ++ [StructureRun query; EnhancementRun (JStr query) sd])
    /\ parse_query rt query W log = (Ok sd, log ++ [StructureRun query])
    /\ enhance_for_retrieval rt sd W (log ++ [StructureRun query])
       = (Ok v, log ++ [StructureRun query; EnhancementRun (JStr query) sd])
    /\ field "original_query" d (JStr query)
    /\ field "enhanced_search_phrases" d v
    /\ (forall k, k <> "enhanced_search_phrases"%string -> dict_get k d = dict_get k sd).
Proof.
  destruct (process_query_shape rt W query log) as (sd & v & Hparse & Henh & Hrun).
  destruct (parse_query_cases rt W query log) as (sd' & Hparse' & Hoq & _).
  assert (sd' = sd) by congruence. subst sd'.
  exists (dict_set "enhanced_search_phrases" v sd), sd, v.
  split; [exact Hrun|]. split; [exact Hparse|]. split; [exact Henh|].
  split; [|split].
  - unfold field. rewrite dict_get_set_other by discriminate. exact Hoq.
  - apply dict_get_set_same.
  - intros k Hk. now apply dict_get_set_other.
Qed.

(** [get_search_terms] returns what [enhance_for_retrieval] returned. *)
Lemma get_search_terms_run (rt : Runtime) (W : World) (query : string) (log : list call) :
  exists sd v,
    parse_query rt query W log = (Ok sd, log ++ [StructureRun query])
    /\ enhance_for_retrieval rt sd W (log ++ [StructureRun query])
       = (Ok v, log ++ [StructureRun query; EnhancementRun (JStr query) sd])
    /\ get_search_terms rt query W log
       = (Ok v, log ++ [StructureRun query; EnhancementRun (JStr query) sd]).
Proof.
  destruct (process_query_shape rt W query log) as (sd & v & Hparse & Henh & Hrun).
  exists sd, v. split; [exact Hparse|]. split; [exact Henh|].
  unfold get_search_terms, parse_insurance_query, bind, ret. rewrite Hrun.
  unfold dict_get_default. now rewrite dict_get_set_same.
Qed.

(** X16. When the structure call is unusable and the enhancement call
    fails as well, [get_search_terms] raises nothing and returns the query
    itself as the only search term. *)
Theorem X16_search_terms_fall_back_to_query (rt : Runtime) (W : World)
        (query : string) (log : list call) :
  unusable rt (structure_chain_run W (length log) query) ->
  (forall oq sd, is_ok (enhancement_chain_run W (S (length log)) oq sd) = false) ->
  exists sd,
    get_search_terms rt query W log
    = (Ok (JArr [JStr query]),
       log ++ [StructureRun query; EnhancementRun (JStr query) sd]).
Proof.
  intros Hbad Hfail.
  destruct (get_search_terms_run rt W query log) as (sd & v & Hparse & Henh & Hrun).
  destruct (parse_query_cases rt W query log) as (sd' & Hparse' & Hoq & Hfall & _).
  assert (sd' = sd) by congruence. subst sd'.
  exists sd. rewrite Hrun. do 2 f_equal.
  destruct (enhance_cases rt W sd (log ++ [StructureRun query]) _ Hoq)
    as (v' & Henh' & Hkw & _).
  rewrite <- app_assoc in Henh'. simpl in Henh'.
  assert (v' = v) by congruence. subst v'.
  destruct (Hkw [query]) as (r & -> & _ & _ & Hr).
  - unfold field. now rewrite (Hfall Hbad "keywords"%string).
  - rewrite Hr; [reflexivity|]. rewrite log_length_1. apply Hfail.
Qed.

Lemma X16_witness :
  unusable Concrete.runtime (structure_chain_run timeout_world 0 knee_query)
  /\ (forall oq sd, is_ok (enhancement_chain_run timeout_world 1 oq sd) = false)
  /\ exists sd,
      get_search_terms Concrete.runtime knee_query timeout_world []
      = (Ok (JArr [JStr knee_query]),
         [StructureRun knee_query; EnhancementRun (JStr knee_query) sd]).
Proof.
  split; [exact I|]. split; [reflexivity|].
  exact (X16_search_terms_fall_back_to_query Concrete.runtime timeout_world knee_query []
           I (fun _ _ => eq_refl)).
Defined.

(** X17. When the structure call is unusable and the enhancement call
    answers, the search terms are, without repeats, the query and the
    non-blank stripped lines of the answer, and nothing else. *)
Theorem X17_search_terms_after_failed_parse (rt : Runtime) (W : World)
        (query : string) (log : list call) (text : string) :
  unusable rt (structure_chain_run W (length log) query) ->
  (forall oq sd, enhancement_chain_run W (S (length log)) oq sd = Ok text) ->
  exists sd r,
    get_search_terms rt query W log
    = (Ok (JArr r), log ++ [StructureRun query; EnhancementRun (JStr query) sd])
    /\ NoDup r
    /\ (forall x, In x r <->
                  exists s, x = JStr s /\ (s = query \/ In s (search_phrases text))).
Proof.
  intros Hbad Hcall.
  destruct (get_search_terms_run rt W query log) as (sd & v & Hparse & Henh & Hrun).
  destruct (parse_query_cases rt W query log) as (sd' & Hparse' & Hoq & Hfall & _).
  assert (sd' = sd) by congruence. subst sd'.
  destruct (enhance_success rt W sd (log ++ [StructureRun query]) (JStr query)
              [query] text Hoq) as (r & Henh' & Hnd & Hin).
  - unfold field. now rewrite (Hfall Hbad "keywords"%string).
  - rewrite log_length_1. apply Hcall.
  - rewrite <- app_assoc in Henh'. simpl in Henh'.
    assert (v = JArr r) by congruence. subst v.
    exists sd, r. split; [exact Hrun|]. split; [exact Hnd|].
    intros x. rewrite Hin. split; intros (s & Hs & [H|H]); exists s; split; auto.
    + destruct H as [H|[]]. now left.
    + left. left. auto.
Qed.

Lemma X17_witness :
  unusable Concrete.runtime (structure_chain_run enhancing_world 0 knee_query)
  /\ (forall oq sd, enhancement_chain_run enhancing_world 1 oq sd = Ok two_lines)
  /\ exists sd r,
      get_search_terms Concrete.runtime knee_query enhancing_world []
      = (Ok (JArr r), [StructureRun knee_query; EnhancementRun (JStr knee_query) sd])
      /\ NoDup r.
Proof.
  split; [exact I|]. split; [reflexivity|].
  destruct (X17_search_terms_after_failed_parse Concrete.runtime enhancing_world
              knee_query [] two_lines I (fun _ _ => eq_refl))
    as (sd & r & Hrun & Hnd & _).
  exists sd, r. split; [exact Hrun | exact Hnd].
Defined.

(* ================================================================== *)
(** ** The span taken from a generated text *)

Open Scope string_scope.

Lemma str_app_assoc (a b c : string) : (a ++ b) ++ c = a ++ (b ++ c).
Proof. induction a as [|x a IH]; simpl; [reflexivity | now rewrite IH]. Qed.

Lemma from_first_open_spec (s t : string) :
  from_first_open s = Some t <->
  exists pre rest, s = pre ++ t /\ t = String "{" rest /\ ~ occurs "{" pre.
Proof.
  unfold occurs. split.
  - revert t. induction s as [|c r IH]; simpl; intros t H; [discriminate|].
    destruct (Ascii.eqb c "{") eqn:E.
    + apply Ascii.eqb_eq in E. subst c. injection H as <-.
      exists "", r. simpl. auto.
    + destruct (IH t H) as (pre & rest & -> & -> & Hpre).
      exists (String c pre), rest. simpl. repeat split; auto.
      intros [Hc|Hc]; [|auto]. subst c. discriminate E.
  - intros (pre & rest & -> & -> & Hpre).
    induction pre as [|c pre IH]; simpl in *; [reflexivity|].
    destruct (Ascii.eqb c "{") eqn:E.
    + apply Ascii.eqb_eq in E. subst c. exfalso. apply Hpre. now left.
    + apply IH. intros H. apply Hpre. now right.
Qed.

Lemma upto_last_close_none (s : string) :
  upto_last_close s = None <-> ~ occurs "}" s.
Proof.
  unfold occurs. induction s as [|c r IH]; simpl.
  - split; auto.
  - destruct (upto_last_close r) as [p|].
    + split; [discriminate|]. intros H. exfalso.
      assert (Hr : ~ In "}"%char (list_ascii_of_string r)) by (intros H'; apply H; now right).
      apply IH in Hr. discriminate.
    + destruct (Ascii.eqb c "}") eqn:E.
      * apply Ascii.eqb_eq in E. subst c. split; [discriminate|].
        intros H. exfalso. apply H. now left.
      * split; auto. intros _ [Hc|Hc].
        -- subst c. discriminate E.
        -- now apply (proj1 IH eq_refl).
Qed.

Lemma upto_last_close_spec (t p : string) :
  upto_last_close t = Some p <->
  exists body post, t = p ++ post /\ p = body ++ "}" /\ ~ occurs "}" post.
Proof.
  split.
  - revert p. induction t as [|c r IH]; simpl; intros p H; [discriminate|].
    destruct (upto_last_close r) as [p'|] eqn:Er.
    + injection H as <-.
      destruct (IH p' eq_refl) as (body & post & -> & -> & Hpost).
      exists (String c body), post. simpl. auto.
    + destruct (Ascii.eqb c "}") eqn:E; [|discriminate].
      apply Ascii.eqb_eq in E. subst c. injection H as <-.
      exists "", r. simpl. repeat split; auto.
      now apply upto_last_close_none.
  - intros (body & post & -> & -> & Hpost).
    induction body as [|c body IH]; simpl.
    + apply upto_last_close_none in Hpost. now rewrite Hpost.
    + now rewrite IH.
Qed.

(** X18. The span handed to [json.loads] runs from the first opening brace
    of the text to its last closing brace: the search succeeds exactly when
    the text is [pre ++ "{" ++ mid ++ "}" ++ post] with no opening brace in
    [pre] and no closing brace in [post], and the span is then
    ["{" ++ mid ++ "}"], whatever [mid] holds. *)
Theorem X18_span_first_open_to_last_close (s span : string) :
  brace_span s = Some span <->
  exists pre mid post,
    s = pre ++ "{" ++ mid ++ "}" ++ post
    /\ ~ occurs "{" pre
    /\ ~ occurs "}" post
    /\ span = "{" ++ mid ++ "}".
Proof.
  unfold brace_span. split.
  - destruct (from_first_open s) as [t|] eqn:Et; [|discriminate].
    intros Hp.
    apply from_first_open_spec in Et. destruct Et as (pre & rest & -> & -> & Hpre).
    apply upto_last_close_spec in Hp. destruct Hp as (body & post & Ht & -> & Hpost).
    destruct body as [|c mid]; simpl in Ht; injection Ht as Hc Hrest; [discriminate Hc|].
    subst c rest. exists pre, mid, post. repeat split; auto.
    simpl. now rewrite str_app_assoc.
  - intros (pre & mid & post & -> & Hpre & Hpost & ->).
    assert (Ht : from_first_open (pre ++ "{" ++ mid ++ "}" ++ post)
                 = Some ("{" ++ mid ++ "}" ++ post)).
    { apply from_first_open_spec. exists pre, (mid ++ "}" ++ post). auto. }
    rewrite Ht. apply upto_last_close_spec.
    exists ("{" ++ mid), post. simpl. repeat split; auto.
    now rewrite str_app_assoc.
Qed.

Lemma X18_witness :
  (exists pre mid post,
      "Here: {a} and {b} done" = pre ++ "{" ++ mid ++ "}" ++ post
      /\ ~ occurs "{" pre /\ ~ occurs "}" post
      /\ "{a} and {b}" = "{" ++ mid ++ "}")
  /\ brace_span "Here: {a} and {b} done" = Some "{a} and {b}".
Proof.
  assert (H : exists pre mid post,
             "Here: {a} and {b} done" = pre ++ "{" ++ mid ++ "}" ++ post
             /\ ~ occurs "{" pre /\ ~ occurs "}" post
             /\ "{a} and {b}" = "{" ++ mid ++ "}").
  { exists "Here: ", "a} and {b", " done". split; [reflexivity|].
    split; [|split; [|reflexivity]]; unfold occurs; simpl;
      intros Hin; repeat (destruct Hin as [Hin|Hin]; [discriminate Hin|]); exact Hin. }
  split; [exact H|].
  exact (proj2 (X18_span_first_open_to_last_close "Here: {a} and {b} done" "{a} and {b}") H).
Defined.

(* ================================================================== *)
(** ** main.py: what the searches and the de-duplication guarantee *)

Open Scope list_scope.

Lemma search_loop_calls (W : World) (terms : list string) :
  forall acc log,
  exists k,
    k <= length terms
    /\ snd (search_loop terms acc W log) = log ++ search_calls (firstn k terms)
    /\ (is_ok (fst (search_loop terms acc W log)) = true -> k = length terms).
Proof.
  induction terms as [|t terms IH]; intros acc log; simpl.
  - exists 0. simpl. rewrite app_nil_r. auto.
  - unfold bind, query_vectorstore. rewrite run_external.
    destruct (similarity_search W (length log) t 2) as [results|e].
    + destruct (IH (acc ++ results) (log ++ [SimilaritySearch t 2])) as (k & Hk & Hlog & Hok).
      exists (S k). split; [lia|]. split.
      * rewrite Hlog. simpl. now rewrite <- app_assoc.
      * intros H. f_equal. auto.
    + exists 1. simpl. split; [lia|]. split; [reflexivity|discriminate].
Qed.

Lemma dedup_first_fresh (l : list string) :
  forall seen,
    NoDup (dedup_first seen l)
    /\ (forall x, In x (dedup_first seen l) -> existsb (String.eqb x) seen = false).
Proof.
  induction l as [|a r IH]; intros seen; simpl.
  - split; [constructor | contradiction].
  - destruct (existsb (String.eqb a) seen) eqn:E.
    + apply IH.
    + destruct (IH (a :: seen)) as [Hnd Hfresh]. split.
      * constructor; auto. intros Hin. apply Hfresh in Hin.
        simpl in Hin. now rewrite String.eqb_refl in Hin.
      * intros x [<-|Hx]; auto. apply Hfresh in Hx. simpl in Hx.
        now apply orb_false_elim in Hx.
Qed.

Lemma NoDup_firstn {A} (n : nat) (l : list A) : NoDup l -> NoDup (firstn n l).
Proof.
  revert l. induction n as [|n IH]; intros [|a l] H; simpl; try constructor.
  - inversion H; subst. intros Hin. apply firstn_In in Hin. contradiction.
  - inversion H; subst. auto.
Qed.

(** X19. Whatever the vector store answers, the retrieval part of
    [query_rag_system] makes at most three searches and no other call,
    each with limit 2 and each for one of the first phrases in their
    order; when it returns, it has searched [min 3 (length search_terms)]
    times and returns at most five documents whose texts are pairwise
    different. *)
Theorem X19_unique_docs_bounds (W : World) (terms : list string) (log : list call) :
  exists k,
    k <= 3 /\ k <= length terms
    /\ snd (unique_docs terms W log) = log ++ search_calls (firstn k terms)
    /\ (forall docs,
           fst (unique_docs terms W log) = Ok docs ->
           k = Nat.min 3 (length terms)
           /\ length docs <= 5
           /\ NoDup (map page_content docs)).
Proof.
  unfold unique_docs, bind.
  destruct (search_loop_calls W (firstn 3 terms) [] log) as (k & Hk & Hlog & Hok).
  rewrite length_firstn in Hk, Hok.
  assert (Hff : firstn k (firstn 3 terms) = firstn k terms)
    by (rewrite firstn_firstn; f_equal; lia).
  rewrite Hff in Hlog. clear Hff.
  exists k. split; [lia|]. split; [lia|].
  destruct (search_loop (firstn 3 terms) [] W log) as [[all|e] log'];
    cbn [fst snd is_ok] in *; unfold ret; cbn [fst snd].
  - split; [exact Hlog|].
    intros docs Hd.
    assert (Hdocs : docs = firstn 5 (dict_values (by_content all))) by congruence.
    clear Hd. subst docs. split; [auto|]. split.
    + rewrite length_firstn. lia.
    + rewrite <- firstn_map, by_content_contents.
      apply NoDup_firstn. apply dedup_first_fresh.
  - split; [exact Hlog | discriminate].
Qed.

Lemma X19_witness :
  exists docs,
    fst (unique_docs ["p1"; "p2"; "p1"; "p2"]%string overlap_world []) = Ok docs
    /\ snd (unique_docs ["p1"; "p2"; "p1"; "p2"]%string overlap_world [])
       = search_calls ["p1"; "p2"; "p1"]%string
    /\ length docs <= 5
    /\ NoDup (map page_content docs).
Proof.
  destruct (X19_unique_docs_bounds overlap_world ["p1"; "p2"; "p1"; "p2"]%string [])
    as (k & _ & _ & Hlog & Hok).
  eexists. split; [reflexivity|].
  destruct (Hok _ eq_refl) as (Hk & Hlen & Hnd).
  split; [|split; [exact Hlen | exact Hnd]].
  rewrite Hlog, Hk. reflexivity.
Defined.

Lemma keyed_value_key (d : list (string * Document)) (x : Document) :
  keyed_by_content d -> In x (dict_values d) -> In (page_content x) (dict_keys d).
Proof.
  unfold keyed_by_content, dict_values, dict_keys.
  induction 1 as [|[k v] r Hkv Hr IH]; simpl; [contradiction|].
  intros [<-|Hx]; auto.
Qed.

Lemma dict_set_nodup_keys {V} (k : string) (v : V) (d : list (string * V)) :
  NoDup (dict_keys d) -> NoDup (dict_keys (dict_set k v d)).
Proof.
  intros H. rewrite dict_keys_set.
  destruct (existsb (String.eqb k) (dict_keys d)) eqn:E; auto.
  apply (Permutation_NoDup (Permutation_cons_append _ k)).
  constructor; auto. intros Hin.
  assert (existsb (String.eqb k) (dict_keys d) = true); [|congruence].
  apply existsb_exists. exists k. split; [exact Hin | apply String.eqb_refl].
Qed.

Lemma dict_set_values_keyed (doc x : Document) (d : list (string * Document)) :
  keyed_by_content d -> NoDup (dict_keys d) ->
  In x (dict_values (dict_set (page_content doc) doc d)) ->
  x = doc \/ (In x (dict_values d) /\ page_content x <> page_content doc).
Proof.
  induction d as [|[k v] r IH]; simpl; intros Hk Hnd Hin.
  - destruct Hin as [<-|[]]. now left.
  - pose proof (Forall_inv Hk) as Hkv. pose proof (Forall_inv_tail Hk) as Hkr.
    simpl in Hkv.
    apply NoDup_cons_iff in Hnd. destruct Hnd as [Hnotin Hndr].
    destruct (String.eqb (page_content doc) k) eqn:E; simpl in Hin.
    + apply String.eqb_eq in E. destruct Hin as [<-|Hin]; [now left|].
      right. split; [now right|]. intros Heq. apply Hnotin.
      rewrite <- E, <- Heq. now apply keyed_value_key.
    + destruct Hin as [<-|Hin].
      * right. split; [now left|]. intros Heq.
        rewrite Hkv in Heq. rewrite Heq, String.eqb_refl in E. discriminate.
      * destruct (IH Hkr Hndr Hin) as [->|[Hx Hne]]; [now left|].
        right. split; [now right | exact Hne].
Qed.

Lemma fold_keeps_last (l : list Document) :
  forall d x,
    keyed_by_content d -> NoDup (dict_keys d) ->
    In x (dict_values (fold_left (fun d doc => dict_set (page_content doc) doc d) l d)) ->
    (exists l1 l2, l = l1 ++ x :: l2
                   /\ forall y, In y l2 -> page_content y <> page_content x)
    \/ (In x (dict_values d) /\ forall y, In y l -> page_content y <> page_content x).
Proof.
  induction l as [|a l IH]; simpl; intros d x Hk Hnd Hin.
  - right. split; [exact Hin | contradiction].
  - destruct (IH _ x (keyed_set a d Hk) (dict_set_nodup_keys _ a d Hnd) Hin)
      as [(l1 & l2 & -> & Hl2)|[Hx Hl]].
    + left. exists (a :: l1), l2. auto.
    + destruct (dict_set_values_keyed a x d Hk Hnd Hx) as [->|[Hx' Hne]].
      * left. exists [], l. auto.
      * right. split; [exact Hx'|]. intros y [<-|Hy]; auto.
Qed.

(** X20. Of the documents that share a text, [unique_docs] keeps the one
    returned last, at the place of the first: every document it returns is
    followed, in the merged answers, by no document with the same text. *)
Theorem X20_unique_docs_keeps_last_object (W : World) (terms : list string)
        (rs : list (list Document)) (log : list call) :
  searches_answer W (length log) (firstn 3 terms) rs ->
  exists docs,
    fst (unique_docs terms W log) = Ok docs
    /\ forall d, In d docs ->
                 exists l1 l2,
                   concat rs = l1 ++ d :: l2
                   /\ forall y, In y l2 -> page_content y <> page_content d.
Proof.
  intros H. unfold unique_docs, bind.
  rewrite (search_loop_ok W _ rs [] log H). unfold ret. rewrite app_nil_l.
  eexists. split; [reflexivity|].
  intros d Hd. apply firstn_In in Hd. unfold by_content in Hd.
  destruct (fold_keeps_last (concat rs) [] d) as [Hlast|[[] _]]; auto; constructor.
Qed.

Lemma X20_witness :
  searches_answer overlap_world 0 (firstn 3 ["p1"; "p2"]%string)
                  [[clause_A; clause_B]; [clause_B_again; clause_C]]
  /\ fst (unique_docs ["p1"; "p2"]%string overlap_world [])
     = Ok [clause_A; clause_B_again; clause_C].
Proof.
  assert (H : searches_answer overlap_world (length (@nil call))
                (firstn 3 ["p1"; "p2"]%string)
                [[clause_A; clause_B]; [clause_B_again; clause_C]])
    by (simpl; auto).
  split; [exact H|].
  destruct (X20_unique_docs_keeps_last_object overlap_world ["p1"; "p2"]%string _ [] H)
    as (docs & Hrun & _).
  reflexivity.
Defined.

(* ================================================================== *)
(** ** main.py: the routing condition *)

Open Scope string_scope.

Lemma starts_with_spec (pat s : string) :
  starts_with pat s = true <-> exists post, s = pat ++ post.
Proof.
  revert s. induction pat as [|a pat IH]; intros s; simpl.
  - split; eauto.
  - destruct s as [|b s].
    + split; [discriminate | intros [post H]; discriminate].
    + rewrite andb_true_iff, IH. split.
      * intros [Hab [post ->]]. apply Ascii.eqb_eq in Hab. subst b. eauto.
      * intros [post [= -> ->]]. split; [apply Ascii.eqb_refl | eauto].
Qed.

Lemma contains_spec (pat s : string) :
  contains pat s = true <-> exists pre post, s = pre ++ pat ++ post.
Proof.
  induction s as [|c r IH].
  - simpl. rewrite orb_false_r, starts_with_spec. split.
    + intros [post H]. exists "", post. exact H.
    + intros (pre & post & H). destruct pre; [eauto|discriminate].
  - cbn [contains]. rewrite orb_true_iff, starts_with_spec, IH. split.
    + intros [[post H]|(pre & post & ->)].
      * exists "", post. exact H.
      * exists (String c pre), post. reflexivity.
    + intros (pre & post & H). destruct pre as [|x pre]; simpl in H.
      * left. eauto.
      * right. injection H as -> ->. eauto.
Qed.

Lemma lower_app (a b : string) : lower (a ++ b) = lower a ++ lower b.
Proof. induction a as [|x a IH]; simpl; [reflexivity | now rewrite IH]. Qed.

Lemma lower_split (s a b : string) :
  lower s = a ++ b -> exists a' b', s = a' ++ b' /\ lower a' = a /\ lower b' = b.
Proof.
  revert s. induction a as [|x a IH]; intros s H; simpl in H.
  - exists "", s. auto.
  - destruct s as [|c s]; simpl in H; [discriminate|].
    injection H as Hx Hs. destruct (IH s Hs) as (a' & b' & -> & Ha & Hb).
    exists (String c a'), b'. simpl. now rewrite Hx, Ha.
Qed.

Lemma contains_lower (pat q : string) :
  contains pat (lower q) = true <->
  exists pre w post, q = pre ++ w ++ post /\ lower w = pat.
Proof.
  rewrite contains_spec. split.
  - intros (a & b & H).
    apply lower_split in H. destruct H as (pre & rest & -> & _ & Hrest).
    apply lower_split in Hrest. destruct Hrest as (w & post & -> & Hw & _).
    eauto.
  - intros (pre & w & post & -> & <-).
    exists (lower pre), (lower post). now rewrite !lower_app.
Qed.

(** X21. The condition under which [process_insurance_query] asks for a
    claim decision holds exactly when the query has a stretch of letters
    that reads [claim] or [surgery] once lowered: in any mix of upper and
    lower case, anywhere in the query, also inside a longer word. *)
Theorem X21_claim_route_is_a_substring_test (query : string) :
  is_claim_query query = true <->
  exists pre w post,
    query = pre ++ w ++ post /\ (lower w = "claim" \/ lower w = "surgery").
Proof.
  unfold is_claim_query. rewrite orb_true_iff, !contains_lower. split.
  - intros [(pre & w & post & H & Hw)|(pre & w & post & H & Hw)];
      exists pre, w, post; auto.
  - intros (pre & w & post & H & [Hw|Hw]); [left|right]; eauto.
Qed.

Lemma X21_witness :
  (exists pre w post,
      "My RECLAIMED luggage" = pre ++ w ++ post
      /\ (lower w = "claim" \/ lower w = "surgery"))
  /\ is_claim_query "My RECLAIMED luggage" = true.
Proof.
  assert (H : exists pre w post,
             "My RECLAIMED luggage" = pre ++ w ++ post
             /\ (lower w = "claim" \/ lower w = "surgery")).
  { exists "My RE", "CLAIM", "ED luggage". split; [reflexivity | left; reflexivity]. }
  split; [exact H|].
  exact (proj2 (X21_claim_route_is_a_substring_test "My RECLAIMED luggage") H).
Defined.

(* ================================================================== *)
(** ** Generated objects, as they pass through *)

Open Scope list_scope.

(** X22. When the answer of the structure call holds a span that decodes
    to an object, [parse_query] returns that object with the query stored
    under [original_query]: every other key comes back as generated, keys
    the prompt never asked for included, and a generated [original_query]
    is replaced. *)
Theorem X22_parse_query_returns_generated_object (rt : Runtime) (W : World)
        (query : string) (log : list call) (o : dict) :
  decodes_to rt (structure_chain_run W (length log) query) o ->
  parse_query rt query W log
  = (Ok (dict_set "original_query" (JStr query) o), log ++ [StructureRun query]).
Proof.
  intros (text & span & Hcall & Hspan & Hloads).
  unfold parse_query, structure_chain_call, try_except, bind, lift, ret.
  now rewrite run_external, Hcall, Hspan, Hloads.
Qed.

Lemma X22_witness :
  decodes_to Concrete.runtime (structure_chain_run refund_world 0 knee_query)
             [("query_type", JStr "refund")]
  /\ parse_query Concrete.runtime knee_query refund_world []
     = (Ok [("query_type", JStr "refund"); ("original_query", JStr knee_query)],
        [StructureRun knee_query]).
Proof.
  assert (H : decodes_to Concrete.runtime (structure_chain_run refund_world 0 knee_query)
                         [("query_type", JStr "refund")]).
  { exists refund_text, refund_text. repeat split; reflexivity. }
  split; [exact H|].
  exact (X22_parse_query_returns_generated_object Concrete.runtime refund_world
           knee_query [] _ H).
Defined.

(** X23. The module-level [get_decision_summary] has no [try] of its own:
    when the request succeeds and the generated object is [APPROVED] with
    a null [amount], [make_decision] returns it and the summary raises the
    [TypeError] of formatting [None]. *)
Theorem X23_summary_raises_on_generated_null_amount (rt : Runtime)
        (str_of : json -> string) (W : World) (query : string)
        (patient_data : option dict) (log : list call) (text span : string) (o : dict) :
  patient_data_complete patient_data ->
  (forall n, is_ok (get_relevant_documents W n query) = true) ->
  (forall n inputs, decision_chain_run W n inputs = Ok text) ->
  brace_span text = Some span ->
  json_loads rt span = Ok (JObj o) ->
  field "decision" o (JStr "APPROVED") ->
  field "amount" o JNull ->
  exists log',
    DecisionUtil.get_decision_summary rt str_of query patient_data W log
    = (Raise (Exn "TypeError" "unsupported format string passed to NoneType.__format__"),
       log').
Proof.
  intros Hc Hret Hllm Hspan Hloads Hd Ha.
  destruct (make_decision_bound rt W query patient_data log)
    as (pd & pre & _ & Hkeys & Hrun).
  destruct (decide_with_decoded rt W query pd (log ++ pre) text span o
              (Hkeys Hc) Hret Hllm Hspan Hloads) as (n & log' & Hdec).
  rewrite Hdec in Hrun. exists log'.
  unfold DecisionUtil.get_decision_summary, DecisionUtil.process_claim_decision, bind, lift.
  rewrite Hrun.
  set (d := dict_set "clauses_count" _ _).
  assert (Hd' : dict_get "decision" d = Some (JStr "APPROVED"))
    by (unfold d; rewrite !dict_get_set_other by discriminate; exact Hd).
  assert (Ha' : dict_get "amount" d = Some JNull)
    by (unfold d; rewrite !dict_get_set_other by discriminate; exact Ha).
  unfold DecisionEngine.get_decision_summary, getitem.
  rewrite Hd'. cbn [is_approved String.eqb Ascii.eqb Bool.eqb]. rewrite Ha'. reflexivity.
Qed.

Lemma X23_witness :
  patient_data_complete (Some knee_patient)
  /\ brace_span no_amount_text = Some no_amount_text
  /\ json_loads Concrete.runtime no_amount_text = Ok (JObj no_amount_object)
  /\ field "decision" no_amount_object (JStr "APPROVED")
  /\ field "amount" no_amount_object JNull
  /\ exists log',
      DecisionUtil.get_decision_summary Concrete.runtime text_of knee_query
        (Some knee_patient) no_amount_world []
      = (Raise (Exn "TypeError" "unsupported format string passed to NoneType.__format__"),
         log').
Proof.
  split; [exact knee_patient_complete|]. split; [reflexivity|]. split; [reflexivity|].
  split; [reflexivity|]. split; [reflexivity|].
  exact (X23_summary_raises_on_generated_null_amount Concrete.runtime text_of
           no_amount_world knee_query (Some knee_patient) [] no_amount_text no_amount_text
           no_amount_object knee_patient_complete (fun _ => eq_refl) (fun _ _ => eq_refl)
           eq_refl eq_refl eq_refl eq_refl).
Defined.
